(** * Signaling relay (server/server.js): rooms, routing and teardown

    A shallow embedding of the WebSocket signaling server.  The module-level
    object [rooms], the per-socket fields [roomId], [isHost] and [readyState],
    and the calls made on sockets ([send], [close]) are threaded through a
    small state-and-exception monad; the two event handlers registered in
    [wss.on('connection', ...)] become the functions [on_message] and
    [on_close]. *)

From stdpp Require Import gmap strings list fin_maps pretty.

Open Scope string_scope.
Open Scope list_scope.
#[local] Set Warnings "-register-all".

(** ** JavaScript values

    What [JSON.parse] can return, plus [undefined] (the value of a missing
    property).  A number is carried by the text [Number.prototype.toString]
    gives for it, which is all the server ever uses of a number: its
    truthiness and its conversion to a property key. *)

Inductive jsval : Type :=
  | VUndefined
  | VNull
  | VBool (b : bool)
  | VNum (repr : string)
  | VStr (s : string)
  | VArr (elems : list jsval)
  | VObj (fields : list (string * jsval)).

(** Own property of an object literal, first match. *)
Fixpoint own (k : string) (fields : list (string * jsval)) : option jsval :=
  match fields with
  | [] => None
  | (k', v) :: rest => if String.eqb k k' then Some v else own k rest
  end.

(** [v.k] for a property name that no built-in prototype defines (the server
    reads [type] and [roomId] only).  [None] is the TypeError raised when the
    base is [null] or [undefined]. *)
Definition Get (v : jsval) (k : string) : option jsval :=
  match v with
  | VUndefined | VNull => None
  | VObj fields => Some (default VUndefined (own k fields))
  | _ => Some VUndefined
  end.

(** ECMAScript ToBoolean. *)
Definition ToBoolean (v : jsval) : bool :=
  match v with
  | VUndefined | VNull => false
  | VBool b => b
  | VNum r => negb (String.eqb r "0" || String.eqb r "NaN")
  | VStr s => negb (String.eqb s "")
  | VArr _ | VObj _ => true
  end.

(** ECMAScript ToString, as applied by a computed member access [o[v]].
    An array is joined with commas, [null] and [undefined] elements printing
    as nothing.  A plain object prints through the inherited
    [Object.prototype.toString]; when it carries an own [toString] field
    (never callable, coming from JSON) the conversion raises a TypeError,
    which is the [None] here. *)
Fixpoint ToString (v : jsval) : option string :=
  match v with
  | VUndefined => Some "undefined"
  | VNull => Some "null"
  | VBool true => Some "true"
  | VBool false => Some "false"
  | VNum r => Some r
  | VStr s => Some s
  | VArr elems =>
      (fix join (l : list jsval) : option string :=
         match l with
         | [] => Some ""
         | x :: l' =>
             let sx := match x with
                       | VUndefined | VNull => Some ""
                       | _ => ToString x
                       end in
             match l' with
             | [] => sx
             | _ :: _ =>
                 match sx, join l' with
                 | Some a, Some b => Some (a +:+ "," +:+ b)
                 | _, _ => None
                 end
             end
         end) elems
  | VObj fields =>
      match own "toString" fields with
      | Some _ => None
      | None => Some "[object Object]"
      end
  end.

(** ** Sockets, rooms and the world *)

Definition Sock := nat.

Inductive ReadyState := CONNECTING | OPEN | CLOSING | CLOSED.

Definition is_OPEN (r : ReadyState) : bool :=
  match r with OPEN => true | _ => false end.

Record WebSocket := mkWebSocket {
  roomId : jsval;
  isHost : bool;
  readyState : ReadyState
}.

(** A socket as the connection handler leaves it:
    [ws.roomId = null; ws.isHost = false], and the transport hands it over
    open. *)
Definition accepted : WebSocket :=
  {| roomId := VNull; isHost := false; readyState := OPEN |}.

(** One entry of [rooms]: [{ host: WebSocket | null, clients: [...] }]. *)
Record Room := mkRoom {
  host : option Sock;
  clients : list Sock
}.

(** What goes down a socket: either the bytes that came in, or the text
    [JSON.stringify] makes of a value. *)
Inductive payload :=
  | Raw (message : string)
  | Stringify (v : jsval).

(** Calls made on sockets, in program order. *)
Inductive effect :=
  | Sent (to : Sock) (p : payload)
  | Closed (c : Sock).

Record World := mkWorld {
  rooms : gmap string Room;
  socks : gmap Sock WebSocket;
  wire : list effect
}.

Definition sock (w : World) (c : Sock) : WebSocket :=
  default accepted (socks w !! c).

(** Property names every plain object inherits from [Object.prototype]:
    [rooms[k]] is a truthy non-room value for these unless a room shadows
    them. *)
Definition Object_prototype_names : list string :=
  [ "constructor"; "__defineGetter__"; "__defineSetter__"; "hasOwnProperty";
    "__lookupGetter__"; "__lookupSetter__"; "isPrototypeOf";
    "propertyIsEnumerable"; "toString"; "valueOf"; "__proto__";
    "toLocaleString" ].

Definition inherited (k : string) : bool :=
  existsb (String.eqb k) Object_prototype_names.

(** The value of [rooms[k]]. *)
Inductive slot :=
  | SUndefined
  | SRoom (room : Room)
  | SInherited.

Definition rooms_get (rs : gmap string Room) (k : string) : slot :=
  match rs !! k with
  | Some room => SRoom room
  | None => if inherited k then SInherited else SUndefined
  end.

(** ** The handler monad: state plus uncaught exceptions *)

Inductive completion (A : Type) :=
  | Normal (a : A) (w : World)
  | Throw (w : World).
Arguments Normal {A} a w.
Arguments Throw {A} w.

Definition M (A : Type) : Type := World -> completion A.

#[global] Instance M_ret : MRet M := fun A a w => Normal a w.
#[global] Instance M_bind : MBind M := fun A B f m w =>
  match m w with
  | Normal a w' => f a w'
  | Throw w' => Throw w'
  end.

Definition throw {A} : M A := fun w => Throw w.

Definition lift {A} (o : option A) : M A :=
  match o with Some a => mret a | None => throw end.

Definition rooms_at (k : string) : M slot :=
  fun w => Normal (rooms_get (rooms w) k) w.

Definition rooms_put (k : string) (room : Room) : M unit :=
  fun w => Normal tt (mkWorld (<[k := room]> (rooms w)) (socks w) (wire w)).

Definition rooms_delete (k : string) : M unit :=
  fun w => Normal tt (mkWorld (delete k (rooms w)) (socks w) (wire w)).

Definition ws_get (c : Sock) : M WebSocket :=
  fun w => Normal (sock w c) w.

Definition ws_put (c : Sock) (s : WebSocket) : M unit :=
  fun w => Normal tt (mkWorld (rooms w) (<[c := s]> (socks w)) (wire w)).

Definition set_roomId (c : Sock) (v : jsval) : M unit :=
  s ← ws_get c; ws_put c (mkWebSocket v (isHost s) (readyState s)).

Definition set_isHost (c : Sock) (b : bool) : M unit :=
  s ← ws_get c; ws_put c (mkWebSocket (roomId s) b (readyState s)).

Definition set_readyState (c : Sock) (r : ReadyState) : M unit :=
  s ← ws_get c; ws_put c (mkWebSocket (roomId s) (isHost s) r).

Definition is_open (c : Sock) : M bool :=
  s ← ws_get c; mret (is_OPEN (readyState s)).

Definition emit (e : effect) : M unit :=
  fun w => Normal tt (mkWorld (rooms w) (socks w) (wire w ++ [e])).

(** [c.send(p)]. *)
Definition send (c : Sock) (p : payload) : M unit := emit (Sent c p).

(** [c.close()], called on open sockets only: the socket starts its closing
    handshake. *)
Definition close (c : Sock) : M unit :=
  set_readyState c CLOSING;; emit (Closed c).

Fixpoint forEach {A} (l : list A) (f : A -> M unit) : M unit :=
  match l with
  | [] => mret tt
  | x :: l' => f x;; forEach l' f
  end.

(** An [if] without [else]. *)
Definition when (b : bool) (m : M unit) : M unit :=
  if b then m else mret tt.

(** [if (c.readyState === WebSocket.OPEN) c.send(p)]. *)
Definition send_if_open (p : payload) (c : Sock) : M unit :=
  o ← is_open c; when o (send c p).

(** ** Helper functions of the server *)

Definition host_player : jsval :=
  VObj [("id", VStr "host"); ("name", VStr "Host")].

Definition client_player (index : nat) (client : Sock) : jsval :=
  VObj [("id", VStr ("client-" +:+ pretty index));
        ("name", VStr ("Cliente " +:+ pretty index))].

(** The array [players] built by [broadcastPlayerList]. *)
Definition players_of (room : Room) : list jsval :=
  (match host room with Some _ => [host_player] | None => [] end)
    ++ imap client_player (clients room).

Definition playerList_msg (room : Room) : payload :=
  Stringify (VObj [("type", VStr "playerList");
                   ("players", VArr (players_of room))]).

(** [function broadcastPlayerList(roomId)]. *)
Definition broadcastPlayerList (roomId : jsval) : M unit :=
  key ← lift (ToString roomId);
  r ← rooms_at key;
  match r with
  | SUndefined => mret tt
  | SInherited => throw
  | SRoom room =>
      let msg := playerList_msg room in
      match host room with
      | Some hostSocket => send_if_open msg hostSocket
      | None => mret tt
      end;;
      forEach (clients room) (send_if_open msg)
  end.

(** [function broadcastInRoom(roomId, obj)]. *)
Definition broadcastInRoom (roomId : jsval) (obj : jsval) : M unit :=
  key ← lift (ToString roomId);
  r ← rooms_at key;
  match r with
  | SUndefined => mret tt
  | SInherited => throw
  | SRoom room =>
      let message := Stringify obj in
      match host room with
      | Some h => send_if_open message h
      | None => mret tt
      end;;
      forEach (clients room) (send_if_open message)
  end.

(** The value of [ws.roomId && rooms[ws.roomId]], an undefined slot standing
    for every falsy outcome. *)
Definition bound_room (ws : Sock) : M slot :=
  s ← ws_get ws;
  if ToBoolean (roomId s)
  then key ← lift (ToString (roomId s)); rooms_at key
  else mret SUndefined.

(** [function handleWebRTCSignaling(ws, data)]. *)
Definition handleWebRTCSignaling (ws : Sock) (data : jsval) : M unit :=
  r ← bound_room ws;
  s ← ws_get ws;
  match r with
  | SUndefined => mret tt
  | SInherited => if isHost s then throw else mret tt
  | SRoom room =>
      if isHost s
      then forEach (clients room) (send_if_open (Stringify data))
      else match host room with
           | Some h => send_if_open (Stringify data) h
           | None => mret tt
           end
  end.

(** ** The message handler, one definition per [case] of the [switch] *)

Definition roomCreated_msg (newRoomId : string) : payload :=
  Stringify (VObj [("type", VStr "roomCreated"); ("roomId", VStr newRoomId)]).

Definition error_msg : payload :=
  Stringify (VObj [("type", VStr "error"); ("message", VStr "Sala no existe")]).

Definition startGame_obj : jsval := VObj [("type", VStr "startGame")].

Definition roomClosed_msg : payload :=
  Stringify (VObj [("type", VStr "roomClosed")]).

(** [case 'createRoom']; [newRoomId] is what [uuidv4()] returns. *)
Definition case_createRoom (ws : Sock) (newRoomId : string) : M unit :=
  rooms_put newRoomId {| host := Some ws; clients := [] |};;
  set_roomId ws (VStr newRoomId);;
  set_isHost ws true;;
  send ws (roomCreated_msg newRoomId).

(** [case 'joinRoom']. *)
Definition case_joinRoom (ws : Sock) (data : jsval) : M unit :=
  roomId ← lift (Get data "roomId");
  key ← lift (ToString roomId);
  r ← rooms_at key;
  match r with
  | SUndefined => send ws error_msg
  | SInherited =>
      set_roomId ws roomId;;
      set_isHost ws false;;
      throw
  | SRoom room =>
      set_roomId ws roomId;;
      set_isHost ws false;;
      rooms_put key {| host := host room; clients := clients room ++ [ws] |};;
      broadcastPlayerList roomId
  end.

(** [case 'startGame']. *)
Definition case_startGame (ws : Sock) : M unit :=
  s ← ws_get ws;
  if isHost s then
    r ← bound_room ws;
    match r with
    | SUndefined => mret tt
    | _ => broadcastInRoom (roomId s) startGame_obj
    end
  else mret tt.

(** [case 'gameState']. *)
Definition case_gameState (ws : Sock) (data : jsval) : M unit :=
  r ← bound_room ws;
  s ← ws_get ws;
  match r with
  | SUndefined => mret tt
  | _ => broadcastInRoom (roomId s) data
  end.

(** [case 'input']; [message] is the frame as received. *)
Definition case_input (ws : Sock) (message : string) : M unit :=
  s ← ws_get ws;
  if isHost s then mret tt else
    r ← bound_room ws;
    match r with
    | SRoom room =>
        match host room with
        | Some h => send_if_open (Raw message) h
        | None => mret tt
        end
    | _ => mret tt
    end.

(** [ws.on('message', ...)].  [parsed] is the outcome of
    [JSON.parse(message)], [None] when it throws; [uuid] is the identifier
    [uuidv4()] yields if the handler asks for one. *)
Definition on_message (ws : Sock) (message : string) (parsed : option jsval)
    (uuid : string) : M unit :=
  match parsed with
  | None => mret tt
  | Some data =>
      ty ← lift (Get data "type");
      match ty with
      | VStr t =>
          if String.eqb t "createRoom" then case_createRoom ws uuid
          else if String.eqb t "joinRoom" then case_joinRoom ws data
          else if String.eqb t "startGame" then case_startGame ws
          else if String.eqb t "offer" then handleWebRTCSignaling ws data
          else if String.eqb t "answer" then handleWebRTCSignaling ws data
          else if String.eqb t "candidate" then handleWebRTCSignaling ws data
          else if String.eqb t "gameState" then case_gameState ws data
          else if String.eqb t "input" then case_input ws message
          else mret tt
      | _ => mret tt
      end
  end.

(** The loop body of the host branch of the close handler. *)
Definition notify_closed (client : Sock) : M unit :=
  o ← is_open client;
  when o (send client roomClosed_msg;; close client).

(** [ws.on('close', ...)]. *)
Definition on_close (ws : Sock) : M unit :=
  r ← bound_room ws;
  s ← ws_get ws;
  match r with
  | SUndefined => mret tt
  | SInherited => throw
  | SRoom room =>
      key ← lift (ToString (roomId s));
      if isHost s then
        forEach (clients room) notify_closed;;
        rooms_delete key
      else
        rooms_put key {| host := host room;
                         clients := filter (λ c, c ≠ ws) (clients room) |};;
        broadcastPlayerList (roomId s)
  end.

(** ** Events of the process

    The server reacts to four things: a connection is accepted, a frame
    arrives on a socket, the transport takes a socket out of the open state,
    and the close event of a socket fires.  The third one runs no handler of
    the server: the WebSocket library sets [readyState] to [CLOSING] as soon
    as the peer's close frame arrives or the link ends, and emits the close
    event later, so other sockets' events can be handled in between.  This
    is the situation the [readyState === WebSocket.OPEN] guards are there
    for. *)

Inductive event :=
  | EvConnection (ws : Sock)
  | EvMessage (ws : Sock) (message : string) (parsed : option jsval)
              (uuid : string)
  | EvClosing (ws : Sock)
  | EvClose (ws : Sock).

(** [wss.on('connection', ...)]: a new socket object with its two fields
    initialised. *)
Definition on_connection (ws : Sock) : M unit := ws_put ws accepted.

Definition handle (e : event) : M unit :=
  match e with
  | EvConnection ws => on_connection ws
  | EvMessage ws message parsed uuid => on_message ws message parsed uuid
  | EvClosing ws => set_readyState ws CLOSING
  | EvClose ws => set_readyState ws CLOSED;; on_close ws
  end.

(** What the environment guarantees: socket objects are new when accepted;
    frames and the close event come from accepted sockets whose close event
    has not fired yet; [uuidv4()] returns a 36-character identifier that names
    no present room. *)
Definition enabled (e : event) (w : World) : bool :=
  match e with
  | EvConnection ws => bool_decide (socks w !! ws = None)
  | EvMessage ws _ _ uuid =>
      match socks w !! ws with
      | Some s =>
          match readyState s with CLOSED => false | _ => true end
          && bool_decide (rooms w !! uuid = None)
          && Nat.eqb (String.length uuid) 36
      | None => false
      end
  | EvClosing ws =>
      match socks w !! ws with
      | Some s => is_OPEN (readyState s)
      | None => false
      end
  | EvClose ws =>
      match socks w !! ws with
      | Some s => match readyState s with CLOSED => false | _ => true end
      | None => false
      end
  end.

(** One step of the process.  An uncaught exception ends the process, so it
    leads nowhere. *)
Definition exec (e : event) (w : World) : option World :=
  if enabled e w then
    match handle e w with
    | Normal _ w' => Some w'
    | Throw _ => None
    end
  else None.

Definition init : World := mkWorld ∅ ∅ [].

(** Worlds the process can be in, under a side condition [ok] on the events
    it is fed. *)
Inductive reach (ok : event -> World -> bool) : World -> Prop :=
  | reach_init : reach ok init
  | reach_step w e w' :
      reach ok w -> ok e w = true -> exec e w = Some w' -> reach ok w'.

Definition any_event (e : event) (w : World) : bool := true.

Definition reachable : World -> Prop := reach any_event.

(** Feeding a list of events, checking the side condition on the way. *)
Fixpoint run_under (ok : event -> World -> bool) (es : list event)
    (w : World) : option World :=
  match es with
  | [] => Some w
  | e :: es' =>
      if ok e w then
        match exec e w with
        | Some w' => run_under ok es' w'
        | None => None
        end
      else None
  end.

Definition run : list event -> World -> option World := run_under any_event.

(** ** Reading the wire *)

(** Payloads handed to [c.send], in order. *)
Fixpoint sent_to (c : Sock) (es : list effect) : list payload :=
  match es with
  | [] => []
  | Sent c' p :: es' =>
      if Nat.eqb c c' then p :: sent_to c es' else sent_to c es'
  | Closed _ :: es' => sent_to c es'
  end.

(** Number of [c.close()] calls. *)
Fixpoint closes_of (c : Sock) (es : list effect) : nat :=
  match es with
  | [] => 0
  | Closed c' :: es' =>
      if Nat.eqb c c' then S (closes_of c es') else closes_of c es'
  | Sent _ _ :: es' => closes_of c es'
  end.

Definition open_in (w : World) (c : Sock) : bool :=
  is_OPEN (readyState (sock w c)).



(** ** Vocabulary of the properties *)

(** The world [w] with [es] appended to the wire and nothing else changed. *)
Definition add_wire (w : World) (es : list effect) : World :=
  mkWorld (rooms w) (socks w) (wire w ++ es).

(** What a handler taking [w] to [w'] put on the wire. *)
Definition emitted (w w' : World) : list effect :=
  drop (length (wire w)) (wire w').

(** [ws] is bound to the room stored under [r]: its [roomId] field is truthy
    and [rooms[ws.roomId]] is that room. *)
Definition bound (w : World) (ws : Sock) (r : string) (room : Room) : Prop :=
  ToBoolean (roomId (sock w ws)) = true /\
  ToString (roomId (sock w ws)) = Some r /\
  rooms w !! r = Some room.

(** The sends of a loop [l.forEach(c => { if (c is open) c.send(p) })]. *)
Fixpoint fanout (w : World) (p : payload) (l : list Sock) : list effect :=
  match l with
  | [] => []
  | c :: l' =>
      (if open_in w c then [Sent c p] else []) ++ fanout w p l'
  end.

(** Number of entries of [l] that are [c]. *)
Fixpoint occ (c : Sock) (l : list Sock) : nat :=
  match l with
  | [] => 0
  | c' :: l' => if Nat.eqb c c' then S (occ c l') else occ c l'
  end.

(** Host slot first, then the clients list. *)
Definition members (room : Room) : list Sock :=
  option_list (host room) ++ clients room.

Definition is_host_of (w : World) (c : Sock) (r : string) : Prop :=
  exists room, rooms w !! r = Some room /\ host room = Some c.

Definition is_client_of (w : World) (c : Sock) (r : string) : Prop :=
  exists room, rooms w !! r = Some room /\ c ∈ clients room.

Definition member_of (w : World) (c : Sock) (r : string) : Prop :=
  is_host_of w c r \/ is_client_of w c r.

(** A socket is in at most one room, there as host or as client and not
    both, and at most once in a clients list. *)
Definition membership_exclusive (w : World) : Prop :=
  (forall c r1 r2, member_of w c r1 -> member_of w c r2 -> r1 = r2) /\
  (forall c r, ~ (is_host_of w c r /\ is_client_of w c r)) /\
  (forall r room, rooms w !! r = Some room -> NoDup (clients room)).

Definition is_null (v : jsval) : bool :=
  match v with VNull => true | _ => false end.

(** Side condition of the routing table: [createRoom] and [joinRoom] come
    from sockets that are not bound yet ([roomId] still [null]). *)
Definition bind_once (e : event) (w : World) : bool :=
  match e with
  | EvMessage ws _ (Some data) _ =>
      match Get data "type" with
      | Some (VStr t) =>
          if String.eqb t "createRoom" || String.eqb t "joinRoom"
          then is_null (roomId (sock w ws))
          else true
      | _ => true
      end
  | _ => true
  end.

(** The reply the specification words for a missing room. *)
Definition spec_error_msg : payload :=
  Stringify (VObj [("type", VStr "error");
                   ("message", VStr "room does not exist")]).

(** ** Sample runs *)

Definition uuid1 : string := "11111111-1111-4111-8111-111111111111".
Definition uuid2 : string := "22222222-2222-4222-8222-222222222222".

Definition msg (t : string) : jsval := VObj [("type", VStr t)].

Definition joinRoom_of (r : string) : jsval :=
  VObj [("type", VStr "joinRoom"); ("roomId", VStr r)].

Definition frame (ws : Sock) (data : jsval) : event :=
  EvMessage ws "{...}" (Some data) uuid2.

(** Socket 0 hosts room [uuid1]; sockets 1 and 2 have joined it. *)
Definition room_of_three : list event :=
  [ EvConnection 0; EvConnection 1; EvConnection 2;
    EvMessage 0 "{...}" (Some (msg "createRoom")) uuid1;
    frame 1 (joinRoom_of uuid1);
    frame 2 (joinRoom_of uuid1) ].

Definition w_three : World := default init (run room_of_three init).

(** The same room after the transport has taken socket 2 out of the open
    state; its close event has not fired yet. *)
Definition w_three_closing : World :=
  default init (run (room_of_three ++ [EvClosing 2]) init).

(** Socket 0 sends [createRoom] twice. *)
Definition w_two_rooms : World :=
  default init
    (run [ EvConnection 0;
           EvMessage 0 "{...}" (Some (msg "createRoom")) uuid1;
           EvMessage 0 "{...}" (Some (msg "createRoom")) uuid2 ] init).

(** The room of three after the transport has taken the host's socket out of
    the open state. *)
Definition w_host_closing : World :=
  default init (run (room_of_three ++ [EvClosing 0]) init).

(** Socket 1 sends [joinRoom] for the same room twice. *)
Definition w_joined_twice : World :=
  default init
    (run [ EvConnection 0; EvConnection 1;
           EvMessage 0 "{...}" (Some (msg "createRoom")) uuid1;
           frame 1 (joinRoom_of uuid1); frame 1 (joinRoom_of uuid1) ] init).

(** One accepted socket, no room. *)
Definition w_lobby : World := default init (run [EvConnection 0] init).

(** ** How one step changes the registry and the bindings *)

Definition binding (w : World) (c : Sock) : jsval * bool :=
  (roomId (sock w c), isHost (sock w c)).

(** Registry and bindings are what they were. *)
Definition quiet (w w' : World) : Prop :=
  rooms w' = rooms w /\ forall c, binding w' c = binding w c.

(** A computation that never touches the registry or a binding. *)
Definition Quiet {A} (m : M A) : Prop :=
  forall w, match m w with
            | Normal _ w' => quiet w w'
            | Throw _ => True
            end.

(** The five shapes a step can have. *)
Inductive change : event -> World -> World -> Prop :=
  | ch_quiet e w w' :
      quiet w w' -> change e w w'
  | ch_create ws message data uuid w w' :
      Get data "type" = Some (VStr "createRoom") ->
      rooms w !! uuid = None ->
      String.length uuid = 36 ->
      rooms w' = <[uuid := mkRoom (Some ws) []]> (rooms w) ->
      binding w' ws = (VStr uuid, true) ->
      (forall c, c ≠ ws -> binding w' c = binding w c) ->
      change (EvMessage ws message (Some data) uuid) w w'
  | ch_join ws message data uuid v key room w w' :
      Get data "type" = Some (VStr "joinRoom") ->
      ToString v = Some key ->
      rooms w !! key = Some room ->
      rooms w' = <[key := mkRoom (host room) (clients room ++ [ws])]> (rooms w) ->
      binding w' ws = (v, false) ->
      (forall c, c ≠ ws -> binding w' c = binding w c) ->
      change (EvMessage ws message (Some data) uuid) w w'
  | ch_host_leaves ws key room w w' :
      bound w ws key room ->
      isHost (sock w ws) = true ->
      rooms w' = delete key (rooms w) ->
      (forall c, binding w' c = binding w c) ->
      change (EvClose ws) w w'
  | ch_client_leaves ws key room w w' :
      bound w ws key room ->
      isHost (sock w ws) = false ->
      rooms w' = <[key := mkRoom (host room)
                            (filter (λ c, c ≠ ws) (clients room))]> (rooms w) ->
      (forall c, binding w' c = binding w c) ->
      change (EvClose ws) w w'.

(** One turn of the loop that tells the clients their room is gone: an open
    socket is sent [roomClosed] and closed, any other socket is skipped. *)
Definition kick (w : World) (c : Sock) : World :=
  if open_in w c then
    mkWorld (rooms w)
      (<[c := mkWebSocket (roomId (sock w c)) (isHost (sock w c)) CLOSING]>
         (socks w))
      (wire w ++ [Sent c roomClosed_msg; Closed c])
  else w.

(** The world after [ws.roomId = v; ws.isHost = b]. *)
Definition rebind (w : World) (ws : Sock) (v : jsval) (b : bool) : World :=
  mkWorld (rooms w)
    (<[ws := mkWebSocket v b (readyState (sock w ws))]> (socks w))
    (wire w).

(** ** Invariants *)

(** Every room has a host. *)
Definition hosted (w : World) : Prop :=
  forall r room, rooms w !! r = Some room -> is_Some (host room).

(** Room identifiers are the 36-character strings [uuidv4()] returned. *)
Definition keys_are_uuids (w : World) : Prop :=
  forall r, is_Some (rooms w !! r) -> String.length r = 36.

(** A socket whose flag says host is in no clients list of the room it is
    bound to. *)
Definition host_not_client (w : World) : Prop :=
  forall c r room,
    rooms w !! r = Some room -> c ∈ clients room ->
    ToString (roomId (sock w c)) = Some r -> isHost (sock w c) = false.

(** The fields of [c] say: bound to [r], with host flag [b]. *)
Definition tied (w : World) (c : Sock) (r : string) (b : bool) : Prop :=
  is_null (roomId (sock w c)) = false /\
  ToString (roomId (sock w c)) = Some r /\
  isHost (sock w c) = b.

(** Registry and socket fields agree. *)
Definition consistent (w : World) : Prop :=
  (forall r room c,
     rooms w !! r = Some room -> host room = Some c -> tied w c r true) /\
  (forall r room c,
     rooms w !! r = Some room -> c ∈ clients room -> tied w c r false) /\
  (forall r room, rooms w !! r = Some room -> NoDup (clients room)).

(** The world in which the close event of [ws] is dispatched: the transport
    has set [ws.readyState] to [CLOSED]. *)
Definition hang_up (w : World) (ws : Sock) : World :=
  mkWorld (rooms w)
    (<[ws := mkWebSocket (roomId (sock w ws)) (isHost (sock w ws)) CLOSED]>
       (socks w))
    (wire w).

(** What socket [c] receives out of a fan-out of [p] over [l]: one copy per
    entry of [l] that is [c], provided [c] is open. *)
Definition copies (w : World) (p : payload) (l : list Sock) (c : Sock)
    : list payload :=
  if open_in w c then replicate (occ c l) p else [].

(** ** Further vocabulary: stale bindings, fatal frames, recipients *)

(** [ws.roomId && rooms[ws.roomId]] is falsy: the socket was never bound, or
    the room it was bound to is gone. *)
Definition roomless (w : World) (ws : Sock) : Prop :=
  ToBoolean (roomId (sock w ws)) = false \/
  exists key,
    ToString (roomId (sock w ws)) = Some key /\
    rooms_get (rooms w) key = SUndefined.

(** The message types the [switch] knows. *)
Definition known_types : list string :=
  [ "createRoom"; "joinRoom"; "startGame"; "offer"; "answer"; "candidate";
    "gameState"; "input" ].

(** The types routed through the sender's room. *)
Definition room_types : list string :=
  [ "startGame"; "offer"; "answer"; "candidate"; "gameState"; "input" ].

(** Frames the message handler does not survive: a parsed value without
    properties ([null]), and a [joinRoom] whose [roomId] cannot be turned
    into a key or names an inherited member that no room shadows. *)
Definition fatal_frame (w : World) (parsed : option jsval) : bool :=
  match parsed with
  | None => false
  | Some data =>
      match Get data "type" with
      | None => true
      | Some (VStr t) =>
          String.eqb t "joinRoom" &&
          match Get data "roomId" with
          | Some v =>
              match ToString v with
              | None => true
              | Some key =>
                  match rooms_get (rooms w) key with
                  | SInherited => true
                  | _ => false
                  end
              end
          | None => true
          end
      | Some _ => false
      end
  end.

(** The sockets something was called on. *)
Fixpoint targets (es : list effect) : list Sock :=
  match es with
  | [] => []
  | Sent c _ :: es' => c :: targets es'
  | Closed c :: es' => c :: targets es'
  end.

(** Every [roomId] field is still [null] or prints as a 36-character
    identifier. *)
Definition bindings_sound (w : World) : Prop :=
  forall c,
    roomId (sock w c) = VNull \/
    exists key,
      ToString (roomId (sock w c)) = Some key /\ String.length key = 36.

(** The world after a successful [joinRoom] of [ws] to the room under
    [key], before the player list goes out. *)
Definition joined (w : World) (ws : Sock) (v : jsval) (key : string)
    (room : Room) : World :=
  mkWorld (<[key := mkRoom (host room) (clients room ++ [ws])]> (rooms w))
    (socks (rebind w ws v false)) (wire w).

(** ** Further sample runs *)

(** Socket 3 connects next to the room of three and has not sent anything. *)
Definition w_three_and_guest : World :=
  default init (run (room_of_three ++ [EvConnection 3]) init).

(** The room of three after its host has gone. *)
Definition w_after_host_left : World :=
  default init (run (room_of_three ++ [EvClose 0]) init).

(** Everything in [es] went to sockets of the room [ws] is bound to in [w],
    or to [ws] itself. *)
Definition within_room (w : World) (ws : Sock) (es : list effect) : Prop :=
  forall c, c ∈ targets es ->
    c = ws \/
    exists r room,
      ToString (roomId (sock w ws)) = Some r /\
      rooms w !! r = Some room /\
      c ∈ members room.

(** [w'] is [w] after at most one fan-out over sockets of the room [ws] is
    bound to. *)
Definition room_shaped (w : World) (ws : Sock) (w' : World) : Prop :=
  w' = w \/
  exists r room p l,
    bound w ws r room /\
    w' = add_wire w (fanout w p l) /\
    forall c, c ∈ l -> c ∈ members room.

(** The world a frame leaves behind, for sample runs. *)
Definition after_frame (ws : Sock) (data : jsval) (w : World) : World :=
  match on_message ws "{...}" (Some data) uuid2 w with
  | Normal _ w' => w'
  | Throw w' => w'
  end.

(** The world after a [createRoom] of [ws] under [uuid], before the
    confirmation goes out. *)
Definition created (w : World) (ws : Sock) (uuid : string) : World :=
  mkWorld (<[uuid := mkRoom (Some ws) []]> (rooms w))
    (socks (rebind w ws (VStr uuid) true)) (wire w).

(** Sample frames as events with a chosen identifier. *)
Definition createRoom_by (ws : Sock) (uuid : string) : event :=
  EvMessage ws "{...}" (Some (msg "createRoom")) uuid.

(** ** Runs in which a socket binds itself a second time *)

Definition uuid3 : string := "33333333-3333-4333-8333-333333333333".



(** Sockets 0 and 1 each create a room, then socket 0 joins the room of
    socket 1: it is still the host of its own room and is bound, as client,
    to the other. *)
Definition host_joins_elsewhere : list event :=
  [ EvConnection 0; EvConnection 1;
    EvMessage 0 "{...}" (Some (msg "createRoom")) uuid1;
    EvMessage 1 "{...}" (Some (msg "createRoom")) uuid2;
    EvMessage 0 "{...}" (Some (joinRoom_of uuid2)) uuid3 ].

Definition w_host_joined_elsewhere : World :=
  default init (run host_joins_elsewhere init).

(** Sockets 0 and 1 each create a room, and socket 2 joins the first and
    then the second: it is listed in both and bound to the second. *)
Definition client_joins_two_rooms : list event :=
  [ EvConnection 0; EvConnection 1; EvConnection 2;
    EvMessage 0 "{...}" (Some (msg "createRoom")) uuid1;
    EvMessage 1 "{...}" (Some (msg "createRoom")) uuid2;
    EvMessage 2 "{...}" (Some (joinRoom_of uuid1)) uuid3;
    EvMessage 2 "{...}" (Some (joinRoom_of uuid2)) uuid3 ].

Definition w_joined_two : World :=
  default init (run client_joins_two_rooms init).

(** ** Running the monad *)

Lemma bind_run {A B} (m : M A) (f : A -> M B) w :
  (m ≫= f) w = match m w with Normal a w' => f a w' | Throw w' => Throw w' end.
Proof. reflexivity. Qed.

Lemma add_wire_nil w : add_wire w [] = w.
Proof. destruct w; unfold add_wire; simpl. by rewrite app_nil_r. Qed.

Lemma add_wire_app w a b : add_wire (add_wire w a) b = add_wire w (a ++ b).
Proof. unfold add_wire; simpl. by rewrite app_assoc. Qed.

Lemma emitted_add_wire w es : emitted w (add_wire w es) = es.
Proof. unfold emitted, add_wire; simpl. by rewrite drop_app_length. Qed.

Lemma fanout_same_socks w w' p l :
  socks w' = socks w -> fanout w' p l = fanout w p l.
Proof.
  intros Hs. induction l as [|c l IH]; simpl; [done|].
  unfold open_in, sock in *. by rewrite Hs, IH.
Qed.

Lemma send_if_open_run p c w :
  send_if_open p c w =
    Normal tt (add_wire w (if open_in w c then [Sent c p] else [])).
Proof.
  unfold send_if_open, is_open. rewrite !bind_run. simpl.
  fold (open_in w c). destruct (open_in w c); simpl; [done|].
  by rewrite add_wire_nil.
Qed.

Lemma forEach_send_if_open p l w :
  forEach l (send_if_open p) w = Normal tt (add_wire w (fanout w p l)).
Proof.
  revert w. induction l as [|c l IH]; intros w; simpl.
  - by rewrite add_wire_nil.
  - rewrite bind_run, send_if_open_run, IH, add_wire_app.
    by rewrite (fanout_same_socks w).
Qed.

Lemma sent_to_app c a b : sent_to c (a ++ b) = sent_to c a ++ sent_to c b.
Proof.
  induction a as [|[c' p|c'] a IH]; simpl; [done| |done].
  destruct (Nat.eqb c c'); simpl; by rewrite IH.
Qed.

Lemma closes_of_app c a b : closes_of c (a ++ b) = closes_of c a + closes_of c b.
Proof.
  induction a as [|[c' p|c'] a IH]; simpl; [done|done|].
  destruct (Nat.eqb c c'); simpl; by rewrite IH.
Qed.

(** What one socket gets out of a fan-out: one copy per entry of the list
    that is this socket, and only if the socket is open. *)
Lemma sent_to_fanout c w p l :
  sent_to c (fanout w p l) =
    if open_in w c then replicate (occ c l) p else [].
Proof.
  induction l as [|c' l IH]; simpl.
  - by destruct (open_in w c).
  - rewrite sent_to_app, IH. destruct (Nat.eqb_spec c c') as [->|Hne].
    + destruct (open_in w c'); simpl; [|done]. by rewrite Nat.eqb_refl.
    + destruct (open_in w c'); simpl; [|done].
      destruct (Nat.eqb_spec c c'); [done|]. done.
Qed.

Lemma occ_pos c l : c ∈ l <-> 0 < occ c l.
Proof.
  induction l as [|c' l IH]; simpl.
  - split; [by intros ?%elem_of_nil | lia].
  - rewrite elem_of_cons, IH. destruct (Nat.eqb_spec c c') as [->|Hne].
    + split; [lia | by left].
    + split; [by intros [?|?] | by right].
Qed.

Lemma occ_zero c l : c ∉ l -> occ c l = 0.
Proof. rewrite occ_pos. lia. Qed.

Lemma occ_NoDup c l : NoDup l -> c ∈ l -> occ c l = 1.
Proof.
  induction 1 as [|c' l Hnin Hnd IH]; simpl.
  - by intros ?%elem_of_nil.
  - intros [->|Hin]%elem_of_cons.
    + rewrite Nat.eqb_refl. by rewrite occ_zero.
    + destruct (Nat.eqb_spec c c') as [->|]; [done | by apply IH].
Qed.

Lemma bound_room_run w ws r room :
  bound w ws r room -> bound_room ws w = Normal (SRoom room) w.
Proof.
  intros (Ht & Hk & Hr). unfold bound_room, ws_get. rewrite bind_run.
  rewrite Ht, bind_run, Hk. simpl. unfold rooms_at, rooms_get. by rewrite Hr.
Qed.

Lemma broadcastPlayerList_run v r room w :
  ToString v = Some r -> rooms w !! r = Some room ->
  broadcastPlayerList v w =
    Normal tt (add_wire w (fanout w (playerList_msg room) (members room))).
Proof.
  intros Hk Hr. unfold broadcastPlayerList. rewrite bind_run, Hk. simpl.
  rewrite bind_run. unfold rooms_at, rooms_get. rewrite Hr.
  rewrite bind_run. unfold members. destruct (host room) as [h|]; simpl.
  - rewrite send_if_open_run, forEach_send_if_open, add_wire_app.
    by rewrite (fanout_same_socks w).
  - by rewrite forEach_send_if_open.
Qed.

Lemma broadcastInRoom_run v obj r room w :
  ToString v = Some r -> rooms w !! r = Some room ->
  broadcastInRoom v obj w =
    Normal tt (add_wire w (fanout w (Stringify obj) (members room))).
Proof.
  intros Hk Hr. unfold broadcastInRoom. rewrite bind_run, Hk. simpl.
  rewrite bind_run. unfold rooms_at, rooms_get. rewrite Hr.
  rewrite bind_run. unfold members. destruct (host room) as [h|]; simpl.
  - rewrite send_if_open_run, forEach_send_if_open, add_wire_app.
    by rewrite (fanout_same_socks w).
  - by rewrite forEach_send_if_open.
Qed.

Lemma dispatch_type ws message data uuid t w :
  Get data "type" = Some (VStr t) ->
  on_message ws message (Some data) uuid w =
    (if String.eqb t "createRoom" then case_createRoom ws uuid
     else if String.eqb t "joinRoom" then case_joinRoom ws data
     else if String.eqb t "startGame" then case_startGame ws
     else if String.eqb t "offer" then handleWebRTCSignaling ws data
     else if String.eqb t "answer" then handleWebRTCSignaling ws data
     else if String.eqb t "candidate" then handleWebRTCSignaling ws data
     else if String.eqb t "gameState" then case_gameState ws data
     else if String.eqb t "input" then case_input ws message
     else mret tt) w.
Proof. intros Ht. unfold on_message. rewrite bind_run, Ht. reflexivity. Qed.

(** ** Computations that leave registry and bindings alone *)

Lemma quiet_refl w : quiet w w.
Proof. by split. Qed.

Lemma quiet_trans w1 w2 w3 : quiet w1 w2 -> quiet w2 w3 -> quiet w1 w3.
Proof.
  intros [Hr1 Hb1] [Hr2 Hb2]. split; [congruence|].
  intros c. by rewrite Hb2, Hb1.
Qed.

Lemma Quiet_ret {A} (a : A) : Quiet (mret a).
Proof. intros w. apply quiet_refl. Qed.

Lemma Quiet_throw {A} : Quiet (@throw A).
Proof. by intros w. Qed.

Lemma Quiet_bind {A B} (m : M A) (f : A -> M B) :
  Quiet m -> (forall a, Quiet (f a)) -> Quiet (m ≫= f).
Proof.
  intros Hm Hf w. rewrite bind_run. specialize (Hm w).
  destruct (m w) as [a w1|w1]; [|done].
  specialize (Hf a w1). destruct (f a w1); [|done]. by eapply quiet_trans.
Qed.

Lemma Quiet_lift {A} (o : option A) : Quiet (lift o).
Proof. destruct o; [apply Quiet_ret | apply Quiet_throw]. Qed.

Lemma Quiet_rooms_at k : Quiet (rooms_at k).
Proof. intros w. apply quiet_refl. Qed.

Lemma Quiet_ws_get c : Quiet (ws_get c).
Proof. intros w. apply quiet_refl. Qed.

Lemma Quiet_emit e : Quiet (emit e).
Proof. intros w. by split. Qed.

Lemma Quiet_set_readyState c r : Quiet (set_readyState c r).
Proof.
  intros w. unfold set_readyState. rewrite bind_run. simpl.
  split; [done|]. intros c'. unfold binding, sock. simpl.
  destruct (decide (c = c')) as [->|Hne].
  - by rewrite lookup_insert_eq.
  - by rewrite lookup_insert_ne.
Qed.

Lemma Quiet_when b m : Quiet m -> Quiet (when b m).
Proof. destruct b; [done|]. intros _. apply Quiet_ret. Qed.

Lemma Quiet_forEach {A} (l : list A) f :
  (forall x, Quiet (f x)) -> Quiet (forEach l f).
Proof.
  intros Hf. induction l as [|x l IH]; simpl; [apply Quiet_ret|].
  apply Quiet_bind; [apply Hf | by intros _].
Qed.

Create HintDb quiet.
#[local] Hint Resolve Quiet_ret Quiet_throw Quiet_lift Quiet_rooms_at
  Quiet_ws_get Quiet_emit Quiet_set_readyState Quiet_when Quiet_forEach
  : quiet.

Ltac quiet_step :=
  first [ solve [eauto with quiet]
        | match goal with
          | |- Quiet (match ?x with _ => _ end) => destruct x
          | |- Quiet (if ?x then _ else _) => destruct x
          end
        | apply Quiet_bind; [|intros ?] ].

Lemma Quiet_send c p : Quiet (send c p).
Proof. apply Quiet_emit. Qed.

Lemma Quiet_close c : Quiet (close c).
Proof. unfold close. repeat quiet_step. Qed.

Lemma Quiet_is_open c : Quiet (is_open c).
Proof. unfold is_open. repeat quiet_step. Qed.

#[local] Hint Resolve Quiet_send Quiet_close Quiet_is_open : quiet.

Lemma Quiet_send_if_open p c : Quiet (send_if_open p c).
Proof. unfold send_if_open. repeat quiet_step. Qed.

Lemma Quiet_notify_closed c : Quiet (notify_closed c).
Proof.
  unfold notify_closed. apply Quiet_bind; [eauto with quiet|intros o].
  apply Quiet_when. repeat quiet_step.
Qed.

#[local] Hint Resolve Quiet_send_if_open Quiet_notify_closed : quiet.

Lemma Quiet_broadcastPlayerList v : Quiet (broadcastPlayerList v).
Proof. unfold broadcastPlayerList. repeat quiet_step. Qed.

Lemma Quiet_broadcastInRoom v obj : Quiet (broadcastInRoom v obj).
Proof. unfold broadcastInRoom. repeat quiet_step. Qed.

Lemma Quiet_bound_room ws : Quiet (bound_room ws).
Proof. unfold bound_room. repeat quiet_step. Qed.

#[local] Hint Resolve Quiet_broadcastPlayerList Quiet_broadcastInRoom
  Quiet_bound_room : quiet.

Lemma Quiet_handleWebRTCSignaling ws data :
  Quiet (handleWebRTCSignaling ws data).
Proof. unfold handleWebRTCSignaling. repeat quiet_step. Qed.

Lemma Quiet_case_startGame ws : Quiet (case_startGame ws).
Proof. unfold case_startGame. repeat quiet_step. Qed.

Lemma Quiet_case_gameState ws data : Quiet (case_gameState ws data).
Proof. unfold case_gameState. repeat quiet_step. Qed.

Lemma Quiet_case_input ws message : Quiet (case_input ws message).
Proof. unfold case_input. repeat quiet_step. Qed.

#[local] Hint Resolve Quiet_handleWebRTCSignaling Quiet_case_startGame
  Quiet_case_gameState Quiet_case_input : quiet.

(** ** The three handlers that change the registry *)

Ltac sock_simpl :=
  repeat (first [ rewrite lookup_insert_eq
                | rewrite lookup_insert_ne by done ]; simpl).

Lemma case_createRoom_run ws uuid w :
  exists w',
    case_createRoom ws uuid w = Normal tt w' /\
    rooms w' = <[uuid := mkRoom (Some ws) []]> (rooms w) /\
    binding w' ws = (VStr uuid, true) /\
    (forall c, c ≠ ws -> binding w' c = binding w c) /\
    (forall c, open_in w' c = open_in w c) /\
    wire w' = wire w ++ [Sent ws (roomCreated_msg uuid)].
Proof.
  eexists. split; [reflexivity|]. split; [done|].
  split; [|split; [|split; [|done]]].
  - unfold binding, sock. simpl. by sock_simpl.
  - intros c Hne. unfold binding, sock. simpl. by sock_simpl.
  - intros c. unfold open_in, sock. simpl.
    destruct (decide (ws = c)) as [->|Hne]; by sock_simpl.
Qed.

Lemma Get_roomId_defined data t :
  Get data "type" = Some t -> exists v, Get data "roomId" = Some v.
Proof. destruct data; simpl; intros; try discriminate; eauto. Qed.

Lemma bound_quiet w w' ws r room :
  quiet w w' -> bound w' ws r room -> bound w ws r room.
Proof.
  intros [Hr Hb] (Ht & Hk & Hl). specialize (Hb ws).
  unfold binding in Hb. injection Hb as Hid Hh.
  unfold bound. rewrite <- Hid, <- Hr. done.
Qed.

Lemma bound_room_cases ws w :
  match bound_room ws w with
  | Normal (SRoom room) w' => w' = w /\ exists r, bound w ws r room
  | Normal _ w' => w' = w
  | Throw w' => w' = w
  end.
Proof.
  unfold bound_room, bound. rewrite bind_run. simpl.
  destruct (ToBoolean (roomId (sock w ws))) eqn:Ht; simpl; [|done].
  rewrite bind_run. destruct (ToString (roomId (sock w ws))) as [k|] eqn:Hk;
    simpl; [|done].
  unfold rooms_get. destruct (rooms w !! k) as [room|] eqn:Hr.
  - split; [done|]. by exists k.
  - by destruct (inherited k).
Qed.

Lemma notify_closed_run c w : notify_closed c w = Normal tt (kick w c).
Proof.
  unfold notify_closed, kick, is_open. rewrite !bind_run. simpl.
  fold (open_in w c). destruct (open_in w c); [|reflexivity].
  unfold when, send, close, emit, set_readyState. rewrite !bind_run. simpl.
  by rewrite <- app_assoc.
Qed.

Lemma forEach_notify_closed l w :
  forEach l notify_closed w = Normal tt (foldl kick w l).
Proof.
  revert w. induction l as [|c l IH]; intros w; simpl; [done|].
  by rewrite bind_run, notify_closed_run, IH.
Qed.

Lemma foldl_kick_quiet l w : quiet w (foldl kick w l).
Proof.
  pose proof (Quiet_forEach l notify_closed Quiet_notify_closed w) as H.
  by rewrite forEach_notify_closed in H.
Qed.

Lemma fanout_same_open w w' p l :
  (forall c, open_in w' c = open_in w c) -> fanout w' p l = fanout w p l.
Proof.
  intros Ho. induction l as [|c l IH]; simpl; [done|]. by rewrite Ho, IH.
Qed.

Lemma rooms_get_SUndefined rs k :
  rooms_get rs k = SUndefined <-> rs !! k = None /\ inherited k = false.
Proof.
  unfold rooms_get. destruct (rs !! k).
  - split; [done | by intros [? _]].
  - destruct (inherited k); [split; [done | by intros [_ ?]] | done].
Qed.

Lemma case_joinRoom_missing ws data v key w :
  Get data "roomId" = Some v ->
  ToString v = Some key ->
  rooms_get (rooms w) key = SUndefined ->
  case_joinRoom ws data w = Normal tt (add_wire w [Sent ws error_msg]).
Proof.
  intros Hv Hk Hs. unfold case_joinRoom.
  rewrite bind_run, Hv. simpl. rewrite bind_run, Hk. simpl.
  rewrite bind_run. unfold rooms_at. by rewrite Hs.
Qed.

Lemma set_roomId_isHost_run {A} ws v b (k : M A) w :
  (set_roomId ws v ≫= λ _, set_isHost ws b ≫= λ _, k) w = k (rebind w ws v b).
Proof.
  rewrite bind_run. unfold set_roomId at 1. rewrite bind_run. simpl.
  rewrite bind_run. unfold set_isHost at 1. rewrite bind_run. simpl.
  unfold rebind, sock. simpl. by rewrite lookup_insert_eq, insert_insert_eq.
Qed.

Lemma open_in_rebind w ws v b c : open_in (rebind w ws v b) c = open_in w c.
Proof.
  unfold open_in, rebind, sock. simpl.
  destruct (decide (ws = c)) as [->|Hne]; by sock_simpl.
Qed.

Lemma binding_rebind_eq w ws v b : binding (rebind w ws v b) ws = (v, b).
Proof. unfold binding, rebind, sock. simpl. by sock_simpl. Qed.

Lemma binding_rebind_ne w ws v b c :
  c ≠ ws -> binding (rebind w ws v b) c = binding w c.
Proof. intros Hne. unfold binding, rebind, sock. simpl. by sock_simpl. Qed.

(** The room as [joinRoom] leaves it. *)
Lemma case_joinRoom_found ws data v key room w :
  Get data "roomId" = Some v ->
  ToString v = Some key ->
  rooms w !! key = Some room ->
  let room' := mkRoom (host room) (clients room ++ [ws]) in
  exists w',
    case_joinRoom ws data w = Normal tt w' /\
    rooms w' = <[key := room']> (rooms w) /\
    binding w' ws = (v, false) /\
    (forall c, c ≠ ws -> binding w' c = binding w c) /\
    (forall c, open_in w' c = open_in w c) /\
    wire w' = wire w ++ fanout w (playerList_msg room') (members room').
Proof.
  intros Hv Hk Hr room'. unfold case_joinRoom.
  rewrite bind_run, Hv. simpl. rewrite bind_run, Hk. simpl.
  rewrite bind_run. unfold rooms_at, rooms_get. rewrite Hr.
  rewrite set_roomId_isHost_run, bind_run. unfold rooms_put at 1.
  rewrite (broadcastPlayerList_run v key room')
    by (done || apply lookup_insert_eq).
  eexists. split; [reflexivity|]. split; [done|].
  split; [apply binding_rebind_eq|]. split; [apply binding_rebind_ne|].
  split; [apply open_in_rebind|]. simpl. f_equal.
  apply fanout_same_open. intros c. apply open_in_rebind.
Qed.

Lemma on_close_host ws r room w :
  bound w ws r room ->
  isHost (sock w ws) = true ->
  on_close ws w =
    Normal tt (let w1 := foldl kick w (clients room) in
               mkWorld (delete r (rooms w1)) (socks w1) (wire w1)).
Proof.
  intros Hb Hh. unfold on_close.
  rewrite bind_run, (bound_room_run _ _ _ _ Hb), bind_run. simpl.
  destruct Hb as (_ & Hk & _). rewrite bind_run, Hk. simpl. rewrite Hh.
  rewrite bind_run, forEach_notify_closed. reflexivity.
Qed.

Lemma on_close_client ws r room w :
  bound w ws r room ->
  isHost (sock w ws) = false ->
  let room' := mkRoom (host room) (filter (λ c, c ≠ ws) (clients room)) in
  on_close ws w =
    Normal tt (add_wire (mkWorld (<[r := room']> (rooms w)) (socks w) (wire w))
                 (fanout w (playerList_msg room') (members room'))).
Proof.
  intros Hb Hh room'. unfold on_close.
  rewrite bind_run, (bound_room_run _ _ _ _ Hb), bind_run. simpl.
  destruct Hb as (_ & Hk & _). rewrite bind_run, Hk. simpl. rewrite Hh.
  rewrite bind_run. simpl.
  rewrite (broadcastPlayerList_run _ r room') by (done || apply lookup_insert_eq).
  by rewrite (fanout_same_socks w).
Qed.

(** ** Every step has one of the five shapes *)

Lemma Quiet_elim {A} (m : M A) w a w' :
  Quiet m -> m w = Normal a w' -> quiet w w'.
Proof. intros Hq Hm. specialize (Hq w). by rewrite Hm in Hq. Qed.

Lemma case_joinRoom_change ws message data uuid w w' :
  Get data "type" = Some (VStr "joinRoom") ->
  case_joinRoom ws data w = Normal tt w' ->
  change (EvMessage ws message (Some data) uuid) w w'.
Proof.
  intros Ht Hrun.
  destruct (Get_roomId_defined _ _ Ht) as [v Hv].
  destruct (ToString v) as [key|] eqn:Hk.
  - destruct (rooms w !! key) as [room|] eqn:Hr.
    + destruct (case_joinRoom_found ws data v key room w Hv Hk Hr)
        as (w1 & Hrun1 & Hrooms & Hb & Hothers & _ & _).
      rewrite Hrun in Hrun1. injection Hrun1 as <-.
      by eapply ch_join.
    + destruct (inherited key) eqn:Hin.
      * exfalso. revert Hrun. unfold case_joinRoom.
        rewrite bind_run, Hv. simpl. rewrite bind_run, Hk. simpl.
        rewrite bind_run. unfold rooms_at, rooms_get. rewrite Hr, Hin.
        by rewrite set_roomId_isHost_run.
      * rewrite (case_joinRoom_missing ws data v key w Hv Hk) in Hrun
          by (by apply rooms_get_SUndefined).
        injection Hrun as <-. apply ch_quiet. by split.
  - exfalso. revert Hrun. unfold case_joinRoom.
    rewrite bind_run, Hv. simpl. by rewrite bind_run, Hk.
Qed.

Lemma on_message_change ws message parsed uuid w w' :
  rooms w !! uuid = None ->
  String.length uuid = 36 ->
  on_message ws message parsed uuid w = Normal tt w' ->
  change (EvMessage ws message parsed uuid) w w'.
Proof.
  intros Hfresh Hlen Hrun. destruct parsed as [data|]; simpl in Hrun.
  2: { injection Hrun as <-. apply ch_quiet, quiet_refl. }
  rewrite bind_run in Hrun.
  destruct (Get data "type") as [ty|] eqn:Hty; simpl in Hrun; [|done].
  assert (Hq : forall m : M unit, Quiet m -> m w = Normal tt w' ->
                 change (EvMessage ws message (Some data) uuid) w w').
  { intros m Hm Hmw. apply ch_quiet. by eapply Quiet_elim. }
  destruct ty as [| |b|n|t|l|fs];
    try (by refine (Hq _ _ Hrun); eauto with quiet).
  destruct (String.eqb_spec t "createRoom") as [->|_].
  { destruct (case_createRoom_run ws uuid w)
      as (w1 & Hrun1 & Hrooms & Hb & Hothers & _ & _).
    rewrite Hrun in Hrun1. injection Hrun1 as <-. by eapply ch_create. }
  destruct (String.eqb_spec t "joinRoom") as [->|_].
  { by apply case_joinRoom_change. }
  destruct (String.eqb t "startGame"); [by refine (Hq _ _ Hrun); eauto with quiet|].
  destruct (String.eqb t "offer"); [by refine (Hq _ _ Hrun); eauto with quiet|].
  destruct (String.eqb t "answer"); [by refine (Hq _ _ Hrun); eauto with quiet|].
  destruct (String.eqb t "candidate"); [by refine (Hq _ _ Hrun); eauto with quiet|].
  destruct (String.eqb t "gameState"); [by refine (Hq _ _ Hrun); eauto with quiet|].
  destruct (String.eqb t "input"); [by refine (Hq _ _ Hrun); eauto with quiet|].
  by refine (Hq _ _ Hrun); eauto with quiet.
Qed.

Lemma on_close_change ws w0 w w' :
  quiet w w0 ->
  on_close ws w0 = Normal tt w' ->
  change (EvClose ws) w w'.
Proof.
  intros Hq Hrun.
  assert (Hh : isHost (sock w0 ws) = isHost (sock w ws)).
  { destruct Hq as [_ Hb]. specialize (Hb ws). by injection Hb. }
  pose proof (bound_room_cases ws w0) as Hc.
  destruct (bound_room ws w0) as [[|room|] w1|w1] eqn:Hbr.
  - subst w1. revert Hrun. unfold on_close. rewrite bind_run, Hbr. simpl.
    intros [= <-]. by apply ch_quiet.
  - destruct Hc as [-> [r Hb]].
    destruct (isHost (sock w0 ws)) eqn:Hh0.
    + rewrite (on_close_host _ _ _ _ Hb Hh0) in Hrun.
      injection Hrun as <-. simpl.
      destruct (foldl_kick_quiet (clients room) w0) as [Hr1 Hb1].
      eapply ch_host_leaves; [by eapply bound_quiet|done| |].
      * simpl. rewrite Hr1. by destruct Hq as [-> _].
      * intros c. unfold binding, sock. simpl. fold (sock (foldl kick w0 (clients room)) c).
        fold (binding (foldl kick w0 (clients room)) c).
        rewrite Hb1. by destruct Hq as [_ ->].
    + rewrite (on_close_client _ _ _ _ Hb Hh0) in Hrun.
      injection Hrun as <-.
      eapply ch_client_leaves; [by eapply bound_quiet|done| |].
      * simpl. by destruct Hq as [-> _].
      * intros c. by destruct Hq as [_ <-].
  - subst w1. revert Hrun. unfold on_close. by rewrite bind_run, Hbr.
  - subst w1. revert Hrun. unfold on_close. by rewrite bind_run, Hbr.
Qed.

Lemma exec_change e w w' : exec e w = Some w' -> change e w w'.
Proof.
  unfold exec. destruct (enabled e w) eqn:Hen; [|done].
  destruct (handle e w) as [[] w1|w1] eqn:Hrun; [|done].
  intros [= <-]. destruct e as [ws|ws message parsed uuid|ws|ws]; simpl in *.
  - apply ch_quiet. apply bool_decide_eq_true in Hen.
    injection Hrun as <-. split; [done|]. intros c.
    unfold binding, sock. simpl.
    destruct (decide (ws = c)) as [->|Hne]; sock_simpl; [|done].
    by rewrite Hen.
  - destruct (socks w !! ws) as [s|]; [|done].
    apply andb_prop in Hen as [Hen Hlen]. apply andb_prop in Hen as [_ Hfresh].
    apply bool_decide_eq_true in Hfresh. apply Nat.eqb_eq in Hlen.
    by apply on_message_change.
  - apply ch_quiet. by eapply Quiet_elim; [apply Quiet_set_readyState|].
  - rewrite bind_run in Hrun.
    destruct (set_readyState ws CLOSED w) as [[] w0|w0] eqn:H0; [|done].
    eapply on_close_change; [|done].
    by eapply Quiet_elim; [apply Quiet_set_readyState|].
Qed.

(** ** Invariants of the reachable worlds *)

Lemma reach_invariant ok (P : World -> Prop) :
  P init ->
  (forall e w w',
     reach ok w -> ok e w = true -> change e w w' -> P w -> P w') ->
  forall w, reach ok w -> P w.
Proof.
  intros Hinit Hstep w Hw. induction Hw as [|w e w' Hw IH Hok Hex]; [done|].
  eapply Hstep; eauto using exec_change.
Qed.

Lemma reach_weaken ok w : reach ok w -> reachable w.
Proof.
  induction 1 as [|w e w' _ IH _ Hex]; [apply reach_init|].
  by eapply reach_step.
Qed.

Lemma run_under_reach ok es w w' :
  reach ok w -> run_under ok es w = Some w' -> reach ok w'.
Proof.
  revert w. induction es as [|e es IH]; intros w Hw; simpl.
  - by intros [= <-].
  - destruct (ok e w) eqn:Hok; [|done].
    destruct (exec e w) as [w1|] eqn:Hex; [|done].
    apply IH. by eapply reach_step.
Qed.

Lemma run_reachable es w : run es init = Some w -> reachable w.
Proof. apply run_under_reach, reach_init. Qed.

Lemma binding_fields w w' c :
  binding w' c = binding w c ->
  roomId (sock w' c) = roomId (sock w c) /\ isHost (sock w' c) = isHost (sock w c).
Proof. unfold binding. by intros [= -> ->]. Qed.

Lemma binding_pair w c v b :
  binding w c = (v, b) -> roomId (sock w c) = v /\ isHost (sock w c) = b.
Proof. unfold binding. by intros [= -> ->]. Qed.

Lemma change_hosted e w w' : change e w w' -> hosted w -> hosted w'.
Proof.
  intros Hch Hw r room'. destruct Hch
    as [e w w' [Hr _]|ws m d uuid w w' _ _ _ Hr _ _
       |ws m d uuid v key room w w' _ _ Hkey Hr _ _
       |ws key room w w' _ _ Hr _|ws key room w w' (_ & _ & Hkey) _ Hr _];
    rewrite Hr.
  - apply Hw.
  - rewrite lookup_insert. case_decide; [by intros [= <-]|apply Hw].
  - rewrite lookup_insert. case_decide; [|apply Hw].
    intros [= <-]. simpl. by eapply Hw.
  - rewrite lookup_delete. case_decide; [done|apply Hw].
  - rewrite lookup_insert. case_decide; [|apply Hw].
    intros [= <-]. simpl. by eapply Hw.
Qed.

(** A step never gives a surviving room another host. *)
Lemma change_host_stable e w w' r room room' :
  change e w w' ->
  rooms w !! r = Some room -> rooms w' !! r = Some room' ->
  host room' = host room.
Proof.
  intros Hch Hold. destruct Hch
    as [e w w' [Hr _]|ws m d uuid w w' _ Hfresh _ Hr _ _
       |ws m d uuid v key room0 w w' _ _ Hkey Hr _ _
       |ws key room0 w w' _ _ Hr _|ws key room0 w w' (_ & _ & Hkey) _ Hr _];
    rewrite Hr.
  - rewrite Hold. by intros [= <-].
  - rewrite lookup_insert. case_decide; [congruence|].
    rewrite Hold. by intros [= <-].
  - rewrite lookup_insert. case_decide as Heq.
    + subst r. intros [= <-]. simpl. congruence.
    + rewrite Hold. by intros [= <-].
  - rewrite lookup_delete. case_decide; [done|].
    rewrite Hold. by intros [= <-].
  - rewrite lookup_insert. case_decide as Heq.
    + subst r. intros [= <-]. simpl. congruence.
    + rewrite Hold. by intros [= <-].
Qed.

Lemma reach_hosted ok w : reach ok w -> hosted w.
Proof.
  apply reach_invariant.
  - intros r room. unfold init. simpl. by rewrite lookup_empty.
  - intros e w0 w' _ _. apply change_hosted.
Qed.

Lemma reach_keys_are_uuids ok w : reach ok w -> keys_are_uuids w.
Proof.
  apply reach_invariant.
  - intros r. unfold init. simpl. rewrite lookup_empty. by intros [? ?].
  - intros e w0 w' _ _ Hch Hw r. destruct Hch
      as [e w0 w' [Hr _]|ws m d uuid w0 w' _ _ Hlen Hr _ _
         |ws m d uuid v key room w0 w' _ _ Hkey Hr _ _
         |ws key room w0 w' _ _ Hr _|ws key room w0 w' (_ & _ & Hkey) _ Hr _];
      rewrite Hr.
    + apply Hw.
    + rewrite lookup_insert. case_decide; [by subst|apply Hw].
    + rewrite lookup_insert. case_decide; [|apply Hw].
      subst. intros _. apply Hw. by rewrite Hkey.
    + rewrite lookup_delete. case_decide; [by intros [? ?]|apply Hw].
    + rewrite lookup_insert. case_decide; [|apply Hw].
      subst. intros _. apply Hw. by rewrite Hkey.
Qed.

Lemma inherited_length k : inherited k = true -> String.length k ≠ 36.
Proof.
  unfold inherited. intros H. apply existsb_exists in H as (x & Hin & Heq).
  apply String.eqb_eq in Heq. subst x. simpl in Hin.
  repeat (destruct Hin as [<-|Hin]; [by simpl|]). done.
Qed.

(** In a reachable world [rooms[k]] is a room or nothing for every key that
    names a room, and the built-in members are never shadowed. *)
Lemma reach_room_not_inherited ok w r room :
  reach ok w -> rooms w !! r = Some room -> inherited r = false.
Proof.
  intros Hw Hr. destruct (inherited r) eqn:Hin; [|done].
  apply inherited_length in Hin.
  by rewrite (reach_keys_are_uuids ok w Hw r) in Hin by by rewrite Hr.
Qed.

Lemma reach_host_not_client ok w : reach ok w -> host_not_client w.
Proof.
  apply reach_invariant.
  - intros c r room. unfold init. simpl. by rewrite lookup_empty.
  - intros e w0 w' _ _ Hch Hw c r room'. destruct Hch
      as [e w0 w' [Hr Hb]|ws m d uuid w0 w' _ Hfresh _ Hr Hb Hothers
         |ws m d uuid v key room w0 w' _ _ Hkey Hr Hb Hothers
         |ws key room w0 w' _ _ Hr Hb|ws key room w0 w' (_ & _ & Hkey) _ Hr Hb];
      rewrite Hr.
    + destruct (binding_fields _ _ _ (Hb c)) as [-> ->]. apply Hw.
    + rewrite lookup_insert. case_decide as Heq.
      * intros [= <-]. simpl. by intros ?%elem_of_nil.
      * intros Hroom Hin. destruct (decide (c = ws)) as [->|Hne].
        -- apply binding_pair in Hb as [-> _]. simpl. congruence.
        -- destruct (binding_fields _ _ _ (Hothers c Hne)) as [-> ->].
           by eapply Hw.
    + destruct (decide (c = ws)) as [->|Hne].
      * intros _ _ _. by apply binding_pair in Hb as [_ ->].
      * destruct (binding_fields _ _ _ (Hothers c Hne)) as [-> ->].
        rewrite lookup_insert. case_decide as Heq; [|apply Hw].
        subst r. intros [= <-]. simpl. rewrite elem_of_app, list_elem_of_singleton.
        intros [Hin|?]; [|done]. by eapply Hw.
    + destruct (binding_fields _ _ _ (Hb c)) as [-> ->].
      rewrite lookup_delete. case_decide; [done|apply Hw].
    + destruct (binding_fields _ _ _ (Hb c)) as [-> ->].
      rewrite lookup_insert. case_decide as Heq; [|apply Hw].
      subst r. intros [= <-]. simpl. rewrite list_elem_of_filter.
      intros [_ Hin]. by eapply Hw.
Qed.

(** ** Bind-once runs keep registry and socket fields in agreement *)

Lemma tied_binding w w' c r b :
  binding w' c = binding w c -> tied w c r b -> tied w' c r b.
Proof.
  intros Hb. unfold tied. by destruct (binding_fields _ _ _ Hb) as [-> ->].
Qed.

Lemma tied_not_null w ws c r b :
  is_null (roomId (sock w ws)) = true -> tied w c r b -> c ≠ ws.
Proof. intros Hnull (Hc & _ & _) ->. congruence. Qed.

Lemma bind_once_create ws m d uuid w :
  Get d "type" = Some (VStr "createRoom") ->
  bind_once (EvMessage ws m (Some d) uuid) w = true ->
  is_null (roomId (sock w ws)) = true.
Proof. intros Ht. simpl. by rewrite Ht. Qed.

Lemma bind_once_join ws m d uuid w :
  Get d "type" = Some (VStr "joinRoom") ->
  bind_once (EvMessage ws m (Some d) uuid) w = true ->
  is_null (roomId (sock w ws)) = true.
Proof. intros Ht. simpl. by rewrite Ht. Qed.

Lemma consistent_init : consistent init.
Proof.
  unfold consistent, init. simpl.
  split; [|split]; [intros r room c|intros r room c|intros r room];
    by rewrite lookup_empty.
Qed.

Lemma change_consistent e w w' :
  keys_are_uuids w -> bind_once e w = true ->
  change e w w' -> consistent w -> consistent w'.
Proof.
  intros Hkeys Hok Hch (Hhost & Hcli & Hnd). destruct Hch
    as [e w w' [Hr Hb]|ws m d uuid w w' Ht Hfresh _ Hr Hb Hothers
       |ws m d uuid v key room w w' Ht Hv Hkey Hr Hb Hothers
       |ws key room w w' _ _ Hr Hb|ws key room w w' (_ & _ & Hkey) _ Hr Hb].
  - unfold consistent. rewrite Hr. split; [|split].
    + intros r room c ??. eapply tied_binding; eauto.
    + intros r room c ??. eapply tied_binding; eauto.
    + done.
  - pose proof (bind_once_create _ _ _ _ _ Ht Hok) as Hnull.
    apply binding_pair in Hb as [Hid Hh].
    unfold consistent. rewrite Hr. split; [|split].
    + intros r room c. rewrite lookup_insert. case_decide as Heq.
      * subst r. intros [= <-] [= <-]. unfold tied. by rewrite Hid, Hh.
      * intros Hroom Hc. specialize (Hhost _ _ _ Hroom Hc).
        eapply tied_binding; [|done]. eauto using tied_not_null.
    + intros r room c. rewrite lookup_insert. case_decide as Heq.
      * intros [= <-]. simpl. by intros ?%elem_of_nil.
      * intros Hroom Hc. specialize (Hcli _ _ _ Hroom Hc).
        eapply tied_binding; [|done]. eauto using tied_not_null.
    + intros r room. rewrite lookup_insert. case_decide as Heq.
      * intros [= <-]. simpl. constructor.
      * apply Hnd.
  - pose proof (bind_once_join _ _ _ _ _ Ht Hok) as Hnull.
    apply binding_pair in Hb as [Hid Hh].
    assert (Hvn : is_null v = false).
    { destruct v; try done. simpl in Hv. injection Hv as <-.
      by specialize (Hkeys "null" ltac:(by rewrite Hkey)). }
    unfold consistent. rewrite Hr. split; [|split].
    + intros r room' c. rewrite lookup_insert. case_decide as Heq.
      * subst r. intros [= <-]. simpl. intros Hc.
        specialize (Hhost _ _ _ Hkey Hc).
        eapply tied_binding; [|done]. eauto using tied_not_null.
      * intros Hroom Hc. specialize (Hhost _ _ _ Hroom Hc).
        eapply tied_binding; [|done]. eauto using tied_not_null.
    + intros r room' c. rewrite lookup_insert. case_decide as Heq.
      * subst r. intros [= <-]. simpl.
        rewrite elem_of_app, list_elem_of_singleton. intros [Hc| ->].
        -- specialize (Hcli _ _ _ Hkey Hc).
           eapply tied_binding; [|done]. eauto using tied_not_null.
        -- unfold tied. by rewrite Hid, Hh.
      * intros Hroom Hc. specialize (Hcli _ _ _ Hroom Hc).
        eapply tied_binding; [|done]. eauto using tied_not_null.
    + intros r room'. rewrite lookup_insert. case_decide as Heq; [|apply Hnd].
      subst r. intros [= <-]. simpl. apply NoDup_app. split; [by eapply Hnd|].
      split; [|apply NoDup_singleton].
      intros c Hc ->%list_elem_of_singleton.
      by apply (tied_not_null w ws ws key false Hnull (Hcli _ _ _ Hkey Hc)).
  - unfold consistent. rewrite Hr. split; [|split].
    + intros r room' c. rewrite lookup_delete. case_decide; [done|].
      intros ??. eapply tied_binding; eauto.
    + intros r room' c. rewrite lookup_delete. case_decide; [done|].
      intros ??. eapply tied_binding; eauto.
    + intros r room'. rewrite lookup_delete. case_decide; [done|]. apply Hnd.
  - unfold consistent. rewrite Hr. split; [|split].
    + intros r room' c. rewrite lookup_insert. case_decide as Heq.
      * subst r. intros [= <-]. simpl. intros Hc.
        eapply tied_binding; eauto.
      * intros ??. eapply tied_binding; eauto.
    + intros r room' c. rewrite lookup_insert. case_decide as Heq.
      * subst r. intros [= <-]. simpl. rewrite list_elem_of_filter.
        intros [_ Hc]. eapply tied_binding; eauto.
      * intros ??. eapply tied_binding; eauto.
    + intros r room'. rewrite lookup_insert. case_decide as Heq; [|apply Hnd].
      subst r. intros [= <-]. simpl. apply NoDup_filter. by eapply Hnd.
Qed.

Lemma reach_consistent w : reach bind_once w -> consistent w.
Proof.
  apply reach_invariant; [apply consistent_init|].
  intros e w0 w' Hw Hok Hch. apply (change_consistent e); [|done..].
  by eapply reach_keys_are_uuids.
Qed.

Lemma consistent_exclusive w : consistent w -> membership_exclusive w.
Proof.
  intros (Hhost & Hcli & Hnd).
  assert (Hm : forall c r, member_of w c r -> exists b, tied w c r b).
  { intros c r [(room & Hr & Hc)|(room & Hr & Hc)]; eauto. }
  split; [|split; [|done]].
  - intros c r1 r2 [b1 (_ & H1 & _)]%Hm [b2 (_ & H2 & _)]%Hm. congruence.
  - intros c r [(room1 & Hr1 & Hc1) (room2 & Hr2 & Hc2)].
    destruct (Hhost _ _ _ Hr1 Hc1) as (_ & _ & Ht).
    destruct (Hcli _ _ _ Hr2 Hc2) as (_ & _ & Hf). congruence.
Qed.

(** ** The close event *)

Lemma exec_close ws w :
  enabled (EvClose ws) w = true ->
  exec (EvClose ws) w =
    match on_close ws (hang_up w ws) with
    | Normal _ w' => Some w'
    | Throw _ => None
    end.
Proof.
  intros Hen. unfold exec. rewrite Hen. simpl. by rewrite bind_run.
Qed.

Lemma binding_hang_up w ws c : binding (hang_up w ws) c = binding w c.
Proof.
  unfold binding, hang_up, sock. simpl.
  destruct (decide (ws = c)) as [->|Hne]; by sock_simpl.
Qed.

Lemma bound_hang_up w ws c r room :
  bound w c r room -> bound (hang_up w ws) c r room.
Proof.
  unfold bound. destruct (binding_fields _ _ _ (binding_hang_up w ws c)) as [-> _].
  done.
Qed.

Lemma isHost_hang_up w ws c :
  isHost (sock (hang_up w ws) c) = isHost (sock w c).
Proof. by destruct (binding_fields _ _ _ (binding_hang_up w ws c)) as [_ ->]. Qed.

Lemma open_in_hang_up w ws c :
  open_in (hang_up w ws) c = if decide (c = ws) then false else open_in w c.
Proof.
  unfold open_in, hang_up, sock. simpl.
  case_decide as Heq; [subst|]; by sock_simpl.
Qed.

Lemma open_in_kick w c0 c :
  open_in (kick w c0) c = if decide (c = c0) then false else open_in w c.
Proof.
  unfold kick. destruct (open_in w c0) eqn:Ho.
  - unfold open_in, sock. simpl. case_decide as Heq; [subst|]; by sock_simpl.
  - case_decide; [by subst|done].
Qed.

Lemma wire_kick w c :
  wire (kick w c) =
    wire w ++ (if open_in w c then [Sent c roomClosed_msg; Closed c] else []).
Proof.
  unfold kick. destruct (open_in w c); simpl; [done|by rewrite app_nil_r].
Qed.

(** What the notification loop puts on the wire: each socket of the list
    that was open when the loop started gets the notice once and is closed
    once, whatever the number of its entries; the others get nothing. *)
Lemma foldl_kick_wire l w :
  exists es,
    wire (foldl kick w l) = wire w ++ es /\
    (forall c, sent_to c es =
       if bool_decide (c ∈ l) && open_in w c then [roomClosed_msg] else []) /\
    (forall c, closes_of c es =
       if bool_decide (c ∈ l) && open_in w c then 1 else 0).
Proof.
  revert w. induction l as [|c0 l IH]; intros w; simpl.
  - exists []. rewrite app_nil_r. split; [done|].
    split; by intros c.
  - destruct (IH (kick w c0)) as (es & Hwire & Hsent & Hclosed).
    exists ((if open_in w c0 then [Sent c0 roomClosed_msg; Closed c0] else [])
              ++ es).
    split; [by rewrite Hwire, wire_kick, app_assoc|].
    split; intros c.
    + rewrite sent_to_app, Hsent, open_in_kick.
      destruct (decide (c = c0)) as [->|Hne].
      * rewrite andb_false_r, app_nil_r.
        rewrite bool_decide_eq_true_2 by apply list_elem_of_here.
        destruct (open_in w c0); simpl; [|done]. by rewrite Nat.eqb_refl.
      * rewrite (bool_decide_ext (c ∈ c0 :: l) (c ∈ l))
          by (rewrite elem_of_cons; split; [by intros [?|?] | by right]).
        destruct (open_in w c0); simpl; [|done].
        by destruct (Nat.eqb_spec c c0).
    + rewrite closes_of_app, Hclosed, open_in_kick.
      destruct (decide (c = c0)) as [->|Hne].
      * rewrite andb_false_r, Nat.add_0_r.
        rewrite bool_decide_eq_true_2 by apply list_elem_of_here.
        destruct (open_in w c0); simpl; [|done]. by rewrite Nat.eqb_refl.
      * rewrite (bool_decide_ext (c ∈ c0 :: l) (c ∈ l))
          by (rewrite elem_of_cons; split; [by intros [?|?] | by right]).
        destruct (open_in w c0); simpl; [|done].
        by destruct (Nat.eqb_spec c c0).
Qed.

Lemma sent_to_copies c w p l : sent_to c (fanout w p l) = copies w p l c.
Proof. apply sent_to_fanout. Qed.

Lemma copies_member w p l c :
  c ∈ l -> open_in w c = true -> p ∈ copies w p l c.
Proof.
  intros Hin Ho. unfold copies. rewrite Ho. apply occ_pos in Hin.
  destruct (occ c l); [lia|]. simpl. apply list_elem_of_here.
Qed.

Lemma copies_outsider w p l c : c ∉ l -> copies w p l c = [].
Proof.
  intros Hin. unfold copies. rewrite (occ_zero _ _ Hin). by destruct (open_in w c).
Qed.

Lemma copies_not_open w p l c : open_in w c = false -> copies w p l c = [].
Proof. intros Ho. unfold copies. by rewrite Ho. Qed.

Lemma exec_close_host ws r room w :
  enabled (EvClose ws) w = true ->
  bound w ws r room ->
  isHost (sock w ws) = true ->
  exec (EvClose ws) w =
    Some (let w1 := foldl kick (hang_up w ws) (clients room) in
          mkWorld (delete r (rooms w1)) (socks w1) (wire w1)).
Proof.
  intros Hen Hb Hh. rewrite (exec_close _ _ Hen).
  rewrite (on_close_host ws r room); [done| |].
  - by apply bound_hang_up.
  - by rewrite isHost_hang_up.
Qed.

Lemma exec_close_client ws r room w :
  enabled (EvClose ws) w = true ->
  bound w ws r room ->
  isHost (sock w ws) = false ->
  let room' := mkRoom (host room) (filter (λ c, c ≠ ws) (clients room)) in
  exec (EvClose ws) w =
    Some (add_wire
            (mkWorld (<[r := room']> (rooms w)) (socks (hang_up w ws)) (wire w))
            (fanout (hang_up w ws) (playerList_msg room') (members room'))).
Proof.
  intros Hen Hb Hh room'. rewrite (exec_close _ _ Hen).
  rewrite (on_close_client ws r room); [done| |].
  - by apply bound_hang_up.
  - by rewrite isHost_hang_up.
Qed.

Lemma exec_createRoom ws message data uuid w w' :
  Get data "type" = Some (VStr "createRoom") ->
  exec (EvMessage ws message (Some data) uuid) w = Some w' ->
  rooms w' = <[uuid := mkRoom (Some ws) []]> (rooms w).
Proof.
  intros Ht. unfold exec. destruct (enabled _ w); [|done]. unfold handle.
  rewrite (dispatch_type _ _ _ _ _ _ Ht).
  change (String.eqb "createRoom" "createRoom") with true. cbv iota.
  destruct (case_createRoom_run ws uuid w) as (w1 & -> & Hr & _).
  by intros [= <-].
Qed.

(** ** Bind-once runs: membership and fields coincide *)

Lemma truthy_uuid v key :
  ToString v = Some key -> String.length key = 36 -> ToBoolean v = true.
Proof.
  destruct v as [| |[]|n|s|l|fs]; simpl; try done.
  - by intros [= <-].
  - by intros [= <-].
  - by intros [= <-].
  - intros [= <-] Hlen.
    destruct (String.eqb_spec n "0") as [->|_]; [done|].
    by destruct (String.eqb_spec n "NaN") as [->|_].
  - intros [= <-] Hlen. by destruct (String.eqb_spec s "") as [->|_].
Qed.

Lemma bind_once_host_bound w ws r :
  reach bind_once w -> is_host_of w ws r ->
  exists room,
    bound w ws r room /\ host room = Some ws /\ isHost (sock w ws) = true.
Proof.
  intros Hw (room & Hr & Hh). exists room.
  destruct (reach_consistent _ Hw) as (Hhost & _ & _).
  destruct (Hhost r room ws Hr Hh) as (_ & Hk & Hflag).
  split; [|done]. split; [|done].
  apply (truthy_uuid _ r Hk), (reach_keys_are_uuids _ _ Hw). by rewrite Hr.
Qed.

Lemma bind_once_client_bound w ws r room :
  reach bind_once w -> rooms w !! r = Some room -> ws ∈ clients room ->
  bound w ws r room /\ isHost (sock w ws) = false.
Proof.
  intros Hw Hr Hin.
  destruct (reach_consistent _ Hw) as (_ & Hcli & _).
  destruct (Hcli r room ws Hr Hin) as (_ & Hk & Hflag).
  split; [|done]. split; [|done].
  apply (truthy_uuid _ r Hk), (reach_keys_are_uuids _ _ Hw). by rewrite Hr.
Qed.

Lemma length_filter_ne (ws : Sock) (l : list Sock) :
  length (filter (λ c, c ≠ ws) l) + occ ws l = length l.
Proof.
  induction l as [|c l IH]; [done|]. rewrite filter_cons. simpl.
  destruct (Nat.eqb_spec ws c) as [->|Hne].
  - rewrite decide_False by (by intros ?). lia.
  - rewrite decide_True by congruence. simpl. lia.
Qed.

Lemma exec_close_host_deletes ws r room w :
  enabled (EvClose ws) w = true ->
  bound w ws r room ->
  isHost (sock w ws) = true ->
  exists w', exec (EvClose ws) w = Some w' /\ rooms w' = delete r (rooms w).
Proof.
  intros Hen Hb Hh. eexists. split; [by apply exec_close_host|]. simpl.
  by destruct (foldl_kick_quiet (clients room) (hang_up w ws)) as [-> _].
Qed.

(** ** Sample worlds are reachable *)

Lemma w_three_reachable : reachable w_three.
Proof.
  apply (run_reachable room_of_three). by vm_compute.
Qed.

Lemma w_three_bind_once : reach bind_once w_three.
Proof.
  apply (run_under_reach bind_once room_of_three init); [apply reach_init|].
  by vm_compute.
Qed.

Lemma w_three_closing_reachable : reachable w_three_closing.
Proof.
  apply (run_reachable (room_of_three ++ [EvClosing 2])). by vm_compute.
Qed.

Lemma w_three_room :
  rooms w_three !! uuid1 = Some (mkRoom (Some 0) [1; 2]).
Proof. by vm_compute. Qed.

Lemma w_three_closing_room :
  rooms w_three_closing !! uuid1 = Some (mkRoom (Some 0) [1; 2]).
Proof. by vm_compute. Qed.

Lemma w_three_bound c :
  c = 0 \/ c = 1 \/ c = 2 -> bound w_three c uuid1 (mkRoom (Some 0) [1; 2]).
Proof. intros [->|[->| ->]]; by vm_compute. Qed.

Lemma w_three_closing_bound c :
  c = 0 \/ c = 1 \/ c = 2 ->
  bound w_three_closing c uuid1 (mkRoom (Some 0) [1; 2]).
Proof. intros [->|[->| ->]]; by vm_compute. Qed.

(** ** The claims *)




(** C3, as the code has it.  A [joinRoom] whose [roomId], turned into a
    property key, finds nothing under [rooms] (no room of that name, and
    not the name of a member every object inherits) is answered with
    exactly one message to the sender, [{type: 'error', message: 'Sala no
    existe'}]; nothing else is sent, and registry and socket fields stay as
    they were. *)
Theorem joinRoom_missing_room ws message data uuid v key w :
  Get data "type" = Some (VStr "joinRoom") ->
  Get data "roomId" = Some v ->
  ToString v = Some key ->
  rooms w !! key = None ->
  inherited key = false ->
  exists w',
    on_message ws message (Some data) uuid w = Normal tt w' /\
    rooms w' = rooms w /\
    socks w' = socks w /\
    emitted w w' = [Sent ws error_msg] /\
    sent_to ws (emitted w w') = [error_msg] /\
    (forall c, c ≠ ws -> sent_to c (emitted w w') = []) /\
    (forall c, closes_of c (emitted w w') = 0).
Proof.
  intros Ht Hv Hk Hnone Hin. exists (add_wire w [Sent ws error_msg]).
  rewrite (dispatch_type _ _ _ _ _ _ Ht). simpl.
  rewrite (case_joinRoom_missing ws data v key w Hv Hk)
    by (by apply rooms_get_SUndefined).
  rewrite emitted_add_wire. simpl. rewrite Nat.eqb_refl.
  do 5 (split; [done|]). split; [|done].
  intros c Hne. by destruct (Nat.eqb_spec c ws).
Qed.

Lemma joinRoom_missing_room_witness :
  exists w',
    on_message 0 "{...}" (Some (joinRoom_of "no-such-room")) uuid1 w_lobby
      = Normal tt w' /\
    rooms w' = rooms w_lobby /\
    socks w' = socks w_lobby /\
    emitted w_lobby w' = [Sent 0 error_msg] /\
    sent_to 0 (emitted w_lobby w') = [error_msg] /\
    (forall c, c ≠ 0 -> sent_to c (emitted w_lobby w') = []) /\
    (forall c, closes_of c (emitted w_lobby w') = 0).
Proof.
  apply (joinRoom_missing_room 0 "{...}" (joinRoom_of "no-such-room") uuid1
           (VStr "no-such-room") "no-such-room" w_lobby);
    reflexivity.
Defined.

(** C3 as worded fails: the reply to a [joinRoom] for a missing room does not
    carry the text "room does not exist". *)
Lemma joinRoom_missing_room_text :
  rooms w_lobby !! "no-such-room" = None /\
  on_message 0 "{...}" (Some (joinRoom_of "no-such-room")) uuid1 w_lobby
    = Normal tt (add_wire w_lobby [Sent 0 error_msg]) /\
  on_message 0 "{...}" (Some (joinRoom_of "no-such-room")) uuid1 w_lobby
    <> Normal tt (add_wire w_lobby [Sent 0 spec_error_msg]).
Proof.
  split; [reflexivity|]. split; [reflexivity|].
  intros H. vm_compute in H. discriminate H.
Qed.

(** A [roomId] that is the name of a member inherited from
    [Object.prototype] passes the existence test although no such room was
    created: the socket gets bound to it and the handler dies on
    [rooms[roomId].clients.push]. *)
Lemma joinRoom_inherited_key_throws :
  on_message 0 "{...}" (Some (joinRoom_of "constructor")) uuid1 w_lobby
    = Throw (rebind w_lobby 0 (VStr "constructor") false).
Proof. reflexivity. Qed.

(** C5, as the code has it.  An [input] frame from a socket bound as client
    ([isHost] unset) to an existing room goes to that room's host and to
    nobody else, and what is handed to the host's [send] is the frame as it
    was received, not a re-serialisation of the parsed value.  The send is
    under the usual guard: it happens when the host's socket is open, and
    then exactly once; otherwise the frame is dropped.  Registry and socket
    fields are untouched. *)
Theorem input_forwarded_raw ws message data uuid r room h w :
  Get data "type" = Some (VStr "input") ->
  bound w ws r room ->
  isHost (sock w ws) = false ->
  host room = Some h ->
  exists w',
    on_message ws message (Some data) uuid w = Normal tt w' /\
    rooms w' = rooms w /\
    socks w' = socks w /\
    emitted w w' = (if open_in w h then [Sent h (Raw message)] else []) /\
    (forall c p, p ∈ sent_to c (emitted w w') -> c = h /\ p = Raw message) /\
    (open_in w h = true -> sent_to h (emitted w w') = [Raw message]).
Proof.
  intros Ht Hb Hh Hhost.
  exists (add_wire w (if open_in w h then [Sent h (Raw message)] else [])).
  rewrite (dispatch_type _ _ _ _ _ _ Ht). simpl.
  unfold case_input. rewrite bind_run. simpl. rewrite Hh.
  rewrite bind_run, (bound_room_run _ _ _ _ Hb), Hhost, send_if_open_run.
  rewrite emitted_add_wire. do 4 (split; [done|]). split.
  - intros c p. destruct (open_in w h); simpl; [|by intros ?%elem_of_nil].
    destruct (Nat.eqb_spec c h) as [->|]; [|by intros ?%elem_of_nil].
    by intros ->%list_elem_of_singleton.
  - intros ->. simpl. by rewrite Nat.eqb_refl.
Qed.

Lemma input_forwarded_raw_witness :
  exists w',
    on_message 1 "<input frame>" (Some (msg "input")) uuid2 w_three
      = Normal tt w' /\
    rooms w' = rooms w_three /\
    socks w' = socks w_three /\
    emitted w_three w' =
      (if open_in w_three 0 then [Sent 0 (Raw "<input frame>")] else []) /\
    (forall c p, p ∈ sent_to c (emitted w_three w') ->
                 c = 0 /\ p = Raw "<input frame>") /\
    (open_in w_three 0 = true ->
     sent_to 0 (emitted w_three w') = [Raw "<input frame>"]).
Proof.
  apply (input_forwarded_raw 1 _ (msg "input") uuid2 uuid1
           (mkRoom (Some 0) [1; 2]) 0 w_three).
  - reflexivity.
  - apply w_three_bound. auto.
  - by vm_compute.
  - reflexivity.
Defined.

(** C5 as worded fails: the host's socket has left the open state (its close
    event has not fired, the room still exists), and the [input] of client 1
    is delivered to nobody. *)
Lemma input_dropped_when_host_closing :
  reachable w_host_closing /\
  bound w_host_closing 1 uuid1 (mkRoom (Some 0) [1; 2]) /\
  isHost (sock w_host_closing 1) = false /\
  exists w',
    on_message 1 "<input frame>" (Some (msg "input")) uuid2 w_host_closing
      = Normal tt w' /\
    sent_to 0 (emitted w_host_closing w') = [] /\
    emitted w_host_closing w' = [].
Proof.
  split.
  { apply (run_reachable (room_of_three ++ [EvClosing 0])). by vm_compute. }
  split; [by vm_compute|]. split; [by vm_compute|].
  exists w_host_closing. repeat split; by vm_compute.
Qed.

(** C7, as the code has it.  A [gameState] frame from a socket bound to an
    existing room is sent, re-serialised from the parsed value, once for
    the host slot and once for each entry of the clients list, skipping the
    sockets that are not open.  The sender is not singled out: if it is
    a member and open it gets its own message back.  Nothing goes to sockets
    outside the room; registry and socket fields are untouched. *)
Theorem gameState_broadcast ws message data uuid r room w :
  Get data "type" = Some (VStr "gameState") ->
  bound w ws r room ->
  exists w',
    on_message ws message (Some data) uuid w = Normal tt w' /\
    rooms w' = rooms w /\
    socks w' = socks w /\
    emitted w w' = fanout w (Stringify data) (members room) /\
    (forall c, sent_to c (emitted w w') =
               copies w (Stringify data) (members room) c) /\
    (forall c, c ∈ members room -> open_in w c = true ->
               Stringify data ∈ sent_to c (emitted w w')) /\
    (ws ∈ members room -> open_in w ws = true ->
               Stringify data ∈ sent_to ws (emitted w w')) /\
    (forall c, c ∉ members room \/ open_in w c = false ->
               sent_to c (emitted w w') = []).
Proof.
  intros Ht Hb.
  exists (add_wire w (fanout w (Stringify data) (members room))).
  rewrite (dispatch_type _ _ _ _ _ _ Ht). simpl.
  unfold case_gameState.
  rewrite bind_run, (bound_room_run _ _ _ _ Hb), bind_run. simpl.
  destruct Hb as (_ & Hk & Hr).
  rewrite (broadcastInRoom_run _ _ r room) by done.
  rewrite emitted_add_wire. do 4 (split; [done|]).
  assert (Hall : forall c, c ∈ members room -> open_in w c = true ->
            Stringify data ∈ sent_to c (fanout w (Stringify data) (members room))).
  { intros c Hin Ho. rewrite sent_to_copies. by apply copies_member. }
  split; [intros c; apply sent_to_copies|]. split; [done|].
  split; [apply Hall|].
  intros c [Hout|Hclosed]; rewrite sent_to_copies.
  - by apply copies_outsider.
  - by apply copies_not_open.
Qed.

Lemma gameState_broadcast_witness :
  exists w',
    on_message 1 "{...}" (Some (msg "gameState")) uuid2 w_three_closing
      = Normal tt w' /\
    rooms w' = rooms w_three_closing /\
    socks w' = socks w_three_closing /\
    emitted w_three_closing w' =
      fanout w_three_closing (Stringify (msg "gameState"))
        (members (mkRoom (Some 0) [1; 2])) /\
    (forall c, sent_to c (emitted w_three_closing w') =
               copies w_three_closing (Stringify (msg "gameState"))
                 (members (mkRoom (Some 0) [1; 2])) c) /\
    (forall c, c ∈ members (mkRoom (Some 0) [1; 2]) ->
               open_in w_three_closing c = true ->
               Stringify (msg "gameState") ∈ sent_to c (emitted w_three_closing w')) /\
    (1 ∈ members (mkRoom (Some 0) [1; 2]) ->
               open_in w_three_closing 1 = true ->
               Stringify (msg "gameState") ∈ sent_to 1 (emitted w_three_closing w')) /\
    (forall c, c ∉ members (mkRoom (Some 0) [1; 2]) \/
               open_in w_three_closing c = false ->
               sent_to c (emitted w_three_closing w') = []).
Proof.
  apply (gameState_broadcast 1 "{...}" (msg "gameState") uuid2 uuid1
           (mkRoom (Some 0) [1; 2]) w_three_closing).
  - reflexivity.
  - apply w_three_closing_bound. auto.
Defined.

(** C7 as worded fails: socket 2 is a client of the room, its socket has left
    the open state, and the [gameState] that client 1 sends is not
    delivered to it. *)
Lemma gameState_skips_closing_member :
  reachable w_three_closing /\
  bound w_three_closing 1 uuid1 (mkRoom (Some 0) [1; 2]) /\
  2 ∈ members (mkRoom (Some 0) [1; 2]) /\
  exists w',
    on_message 1 "{...}" (Some (msg "gameState")) uuid2 w_three_closing
      = Normal tt w' /\
    sent_to 2 (emitted w_three_closing w') = [].
Proof.
  split; [apply w_three_closing_reachable|].
  split; [apply w_three_closing_bound; auto|].
  split; [unfold members; simpl; rewrite !elem_of_cons; auto|].
  exists (add_wire w_three_closing
            [Sent 0 (Stringify (msg "gameState"));
             Sent 1 (Stringify (msg "gameState"))]).
  split; by vm_compute.
Qed.




(** C6, as the code has it.  For a room of a reachable world with clients
    list [l], the player-list broadcast builds one payload,
    [{type: 'playerList', players}], whose [players] has [1 + length l]
    entries: the host entry first, then for the client at position [i] the
    entry with id [client-i] and name [Cliente i].  That same payload is
    sent once for the host slot and once for each entry of [l], skipping the
    sockets that are not open; nothing else is sent and nothing else
    changes. *)
Theorem playerList_broadcast v r room w :
  reachable w ->
  ToString v = Some r ->
  rooms w !! r = Some room ->
  exists h w',
    host room = Some h /\
    broadcastPlayerList v w = Normal tt w' /\
    rooms w' = rooms w /\
    socks w' = socks w /\
    emitted w w' = fanout w (playerList_msg room) (h :: clients room) /\
    (forall c, sent_to c (emitted w w') =
               copies w (playerList_msg room) (h :: clients room) c) /\
    (forall c, c ∈ h :: clients room -> open_in w c = true ->
               playerList_msg room ∈ sent_to c (emitted w w')) /\
    (forall c p, p ∈ sent_to c (emitted w w') -> p = playerList_msg room) /\
    playerList_msg room =
      Stringify (VObj [("type", VStr "playerList");
                       ("players", VArr (players_of room))]) /\
    players_of room = host_player :: imap client_player (clients room) /\
    length (players_of room) = S (length (clients room)) /\
    (forall i c, clients room !! i = Some c ->
       players_of room !! S i =
         Some (VObj [("id", VStr ("client-" +:+ pretty i));
                     ("name", VStr ("Cliente " +:+ pretty i))])).
Proof.
  intros Hw Hk Hr. destruct (reach_hosted _ _ Hw r room Hr) as [h Hhost].
  exists h, (add_wire w (fanout w (playerList_msg room) (h :: clients room))).
  split; [done|].
  rewrite (broadcastPlayerList_run v r room w Hk Hr).
  unfold members. rewrite Hhost. simpl option_list. simpl app.
  rewrite emitted_add_wire. do 4 (split; [done|]).
  split; [intros c; apply sent_to_copies|].
  split; [intros c Hin Ho; rewrite sent_to_copies; by apply copies_member|].
  split.
  { intros c p. rewrite sent_to_copies. unfold copies.
    destruct (open_in w c); [|by intros ?%elem_of_nil].
    by intros [-> _]%elem_of_replicate. }
  split; [done|].
  assert (Hp : players_of room = host_player :: imap client_player (clients room)).
  { unfold players_of. by rewrite Hhost. }
  split; [done|]. rewrite Hp. split; [by rewrite length_cons, length_imap|].
  intros i c Hi. simpl. by rewrite list_lookup_imap, Hi.
Qed.

Lemma playerList_broadcast_witness :
  exists h w',
    host (mkRoom (Some 0) [1; 2]) = Some h /\
    broadcastPlayerList (VStr uuid1) w_three = Normal tt w' /\
    rooms w' = rooms w_three /\
    socks w' = socks w_three /\
    emitted w_three w' =
      fanout w_three (playerList_msg (mkRoom (Some 0) [1; 2])) (h :: [1; 2]) /\
    (forall c, sent_to c (emitted w_three w') =
               copies w_three (playerList_msg (mkRoom (Some 0) [1; 2]))
                 (h :: [1; 2]) c) /\
    (forall c, c ∈ h :: [1; 2] -> open_in w_three c = true ->
               playerList_msg (mkRoom (Some 0) [1; 2])
                 ∈ sent_to c (emitted w_three w')) /\
    (forall c p, p ∈ sent_to c (emitted w_three w') ->
                 p = playerList_msg (mkRoom (Some 0) [1; 2])) /\
    playerList_msg (mkRoom (Some 0) [1; 2]) =
      Stringify (VObj [("type", VStr "playerList");
                       ("players", VArr (players_of (mkRoom (Some 0) [1; 2])))]) /\
    players_of (mkRoom (Some 0) [1; 2]) =
      host_player :: imap client_player [1; 2] /\
    length (players_of (mkRoom (Some 0) [1; 2])) = 3 /\
    (forall i c, [1; 2] !! i = Some c ->
       players_of (mkRoom (Some 0) [1; 2]) !! S i =
         Some (VObj [("id", VStr ("client-" +:+ pretty i));
                     ("name", VStr ("Cliente " +:+ pretty i))])).
Proof.
  apply (playerList_broadcast (VStr uuid1) uuid1 (mkRoom (Some 0) [1; 2])
           w_three).
  - apply w_three_reachable.
  - reflexivity.
  - apply w_three_room.
Defined.

(** C6 as worded fails: the room has two clients, the socket of the second
    one has left the open state, and the player-list broadcast does not
    send it the payload. *)
Lemma playerList_skips_closing_client :
  reachable w_three_closing /\
  rooms w_three_closing !! uuid1 = Some (mkRoom (Some 0) [1; 2]) /\
  exists w',
    broadcastPlayerList (VStr uuid1) w_three_closing = Normal tt w' /\
    sent_to 0 (emitted w_three_closing w')
      = [playerList_msg (mkRoom (Some 0) [1; 2])] /\
    sent_to 1 (emitted w_three_closing w')
      = [playerList_msg (mkRoom (Some 0) [1; 2])] /\
    sent_to 2 (emitted w_three_closing w') = [].
Proof.
  split; [apply w_three_closing_reachable|].
  split; [apply w_three_closing_room|].
  exists (add_wire w_three_closing
            [Sent 0 (playerList_msg (mkRoom (Some 0) [1; 2]));
             Sent 1 (playerList_msg (mkRoom (Some 0) [1; 2]))]).
  repeat split; by vm_compute.
Qed.

(** C9, as the code has it.  In every reachable world each room of the
    registry has a host: the creator is stored as host when the room is
    made, and no step gives a room that stays in the registry another host
    or none.  The entry is deleted as a whole when the close event fires
    on a socket bound to the room with the host flag set; in a bind-once
    run that is the close event of every room's host.  (A host that bound
    itself elsewhere by a later [createRoom] or [joinRoom] leaves its room
    behind, with the closed socket still as its host.)  Hence the
    player-list payload of every room starts with the host entry, and an
    [input] frame from a socket bound as client always finds a host to be
    forwarded to. *)
Theorem rooms_always_hosted w :
  reachable w ->
  (forall r room, rooms w !! r = Some room ->
     exists h, host room = Some h /\
       playerList_msg room =
         Stringify (VObj [("type", VStr "playerList");
                          ("players",
                           VArr (VObj [("id", VStr "host"); ("name", VStr "Host")]
                                 :: imap (λ (index : nat) (_ : Sock),
               VObj [("id", VStr ("client-" +:+ pretty index));
                     ("name", VStr ("Cliente " +:+ pretty index))])
                                      (clients room)))])) /\
  (forall ws message data uuid w',
     Get data "type" = Some (VStr "createRoom") ->
     exec (EvMessage ws message (Some data) uuid) w = Some w' ->
     rooms w' !! uuid = Some (mkRoom (Some ws) [])) /\
  (forall e w' r room room',
     exec e w = Some w' ->
     rooms w !! r = Some room -> rooms w' !! r = Some room' ->
     host room' = host room) /\
  (forall ws r room,
     enabled (EvClose ws) w = true ->
     bound w ws r room -> isHost (sock w ws) = true ->
     exists w', exec (EvClose ws) w = Some w' /\
                rooms w' = delete r (rooms w)) /\
  (forall ws r,
     reach bind_once w ->
     enabled (EvClose ws) w = true ->
     is_host_of w ws r ->
     exists w', exec (EvClose ws) w = Some w' /\
                rooms w' = delete r (rooms w)) /\
  (forall ws r room message,
     bound w ws r room -> isHost (sock w ws) = false ->
     exists h, host room = Some h /\
       case_input ws message w =
         Normal tt (add_wire w (if open_in w h then [Sent h (Raw message)]
                                else []))).
Proof.
  intros Hw. split; [|split; [|split; [|split; [|split]]]].
  - intros r room Hr. destruct (reach_hosted _ _ Hw r room Hr) as [h Hh].
    exists h. split; [done|]. unfold playerList_msg, players_of.
    by rewrite Hh.
  - intros ws message data uuid w' Ht Hex.
    rewrite (exec_createRoom _ _ _ _ _ _ Ht Hex). apply lookup_insert_eq.
  - intros e w' r room room' Hex. apply (change_host_stable e).
    by apply exec_change.
  - intros ws r room Hen Hb Hh. by apply (exec_close_host_deletes ws r room).
  - intros ws r Hbo Hen Hhost.
    destruct (bind_once_host_bound w ws r Hbo Hhost) as (room & Hb & _ & Hh).
    by apply (exec_close_host_deletes ws r room).
  - intros ws r room message Hb Hh.
    destruct Hb as (Ht & Hk & Hr).
    destruct (reach_hosted _ _ Hw r room Hr) as [h Hhost].
    exists h. split; [done|]. unfold case_input. rewrite bind_run. simpl.
    rewrite Hh, bind_run, (bound_room_run w ws r room) by done.
    by rewrite Hhost, send_if_open_run.
Qed.

Lemma rooms_always_hosted_witness :
  reachable w_three /\
  exists h, host (mkRoom (Some 0) [1; 2]) = Some h /\
    playerList_msg (mkRoom (Some 0) [1; 2]) =
      Stringify (VObj [("type", VStr "playerList");
                       ("players",
                        VArr (VObj [("id", VStr "host"); ("name", VStr "Host")]
                              :: imap (λ (index : nat) (_ : Sock),
               VObj [("id", VStr ("client-" +:+ pretty index));
                     ("name", VStr ("Cliente " +:+ pretty index))])
                                   [1; 2]))]).
Proof.
  split; [apply w_three_reachable|].
  apply (proj1 (rooms_always_hosted w_three w_three_reachable) uuid1).
  apply w_three_room.
Defined.

(** C9 as worded fails in one clause: socket 0 is the host of its room and
    has since joined the room of socket 1.  When socket 0 disconnects, its
    own room is not deleted: it stays in the registry, its host being the
    closed socket. *)
Lemma host_departure_leaves_room :
  reachable w_host_joined_elsewhere /\
  is_host_of w_host_joined_elsewhere 0 uuid1 /\
  enabled (EvClose 0) w_host_joined_elsewhere = true /\
  exists w',
    exec (EvClose 0) w_host_joined_elsewhere = Some w' /\
    rooms w' !! uuid1 = Some (mkRoom (Some 0) []) /\
    readyState (sock w' 0) = CLOSED.
Proof.
  split; [apply (run_reachable host_joins_elsewhere); by vm_compute|].
  split.
  { exists (mkRoom (Some 0) []). split; [by vm_compute|reflexivity]. }
  split; [by vm_compute|].
  exists (default init (exec (EvClose 0) w_host_joined_elsewhere)).
  repeat split; by vm_compute.
Qed.

(** C1, as the code has it.  As long as [createRoom] and [joinRoom] are
    only sent by sockets that are not bound yet (the handler itself does not
    check this), every socket is in at most one room, as its host or as one
    of its clients but not both, and no socket is twice in a clients
    list. *)
Theorem bind_once_membership_exclusive w :
  reach bind_once w -> membership_exclusive w.
Proof. intros Hw. by apply consistent_exclusive, reach_consistent. Qed.

Lemma bind_once_membership_exclusive_witness :
  reach bind_once w_three /\ membership_exclusive w_three.
Proof.
  split; [apply w_three_bind_once|].
  apply (bind_once_membership_exclusive w_three). apply w_three_bind_once.
Defined.

(** C1 as worded fails: a socket that sends [createRoom] twice is the host
    of both rooms. *)
Lemma host_of_two_rooms :
  reachable w_two_rooms /\
  is_host_of w_two_rooms 0 uuid1 /\
  is_host_of w_two_rooms 0 uuid2 /\
  ~ membership_exclusive w_two_rooms.
Proof.
  assert (H1 : is_host_of w_two_rooms 0 uuid1).
  { exists (mkRoom (Some 0) []). split; by vm_compute. }
  assert (H2 : is_host_of w_two_rooms 0 uuid2).
  { exists (mkRoom (Some 0) []). split; by vm_compute. }
  split.
  { apply (run_reachable
      [ EvConnection 0;
        EvMessage 0 "{...}" (Some (msg "createRoom")) uuid1;
        EvMessage 0 "{...}" (Some (msg "createRoom")) uuid2 ]).
    by vm_compute. }
  do 2 (split; [done|]). intros (Huniq & _ & _).
  by specialize (Huniq 0 uuid1 uuid2 (or_introl H1) (or_introl H2)).
Qed.

(** The same socket joining the same room twice is listed twice. *)
Lemma joined_twice_listed_twice :
  reachable w_joined_twice /\
  rooms w_joined_twice !! uuid1 = Some (mkRoom (Some 0) [1; 1]).
Proof.
  split; [|by vm_compute].
  apply (run_reachable
    [ EvConnection 0; EvConnection 1;
      EvMessage 0 "{...}" (Some (msg "createRoom")) uuid1;
      frame 1 (joinRoom_of uuid1); frame 1 (joinRoom_of uuid1) ]).
  by vm_compute.
Qed.

(** C2, as the code has it.  When the close event fires on a socket bound as
    host to an existing room, the handler first walks the room's clients
    list: every client whose socket is open at that moment is sent exactly
    one [{type: 'roomClosed'}] and is closed exactly once, however often it
    is listed; a client whose socket is not open gets no message and no
    [close()].  Only then is the room deleted, and nothing is sent after
    the deletion.  From then on the identifier names no room, and a
    [joinRoom] for it is answered with the missing-room error. *)
Theorem host_leaves ws r room w :
  reachable w ->
  enabled (EvClose ws) w = true ->
  bound w ws r room ->
  isHost (sock w ws) = true ->
  exists w1 w',
    forEach (clients room) notify_closed (hang_up w ws) = Normal tt w1 /\
    rooms w1 !! r = Some room /\
    exec (EvClose ws) w = Some w' /\
    rooms w' = delete r (rooms w1) /\
    wire w' = wire w1 /\
    rooms w' = delete r (rooms w) /\
    (forall c, sent_to c (emitted w w') =
       if bool_decide (c ∈ clients room) && open_in w c
       then [roomClosed_msg] else []) /\
    (forall c, closes_of c (emitted w w') =
       if bool_decide (c ∈ clients room) && open_in w c then 1 else 0) /\
    rooms w' !! r = None /\
    (forall ws' message data uuid v,
       Get data "type" = Some (VStr "joinRoom") ->
       Get data "roomId" = Some v ->
       ToString v = Some r ->
       on_message ws' message (Some data) uuid w' =
         Normal tt (add_wire w' [Sent ws' error_msg])).
Proof.
  intros Hw Hen Hb Hh.
  set (w1 := foldl kick (hang_up w ws) (clients room)).
  exists w1, (mkWorld (delete r (rooms w1)) (socks w1) (wire w1)).
  destruct (foldl_kick_quiet (clients room) (hang_up w ws)) as [Hrooms _].
  fold w1 in Hrooms. simpl in Hrooms.
  destruct (foldl_kick_wire (clients room) (hang_up w ws))
    as (es & Hwire & Hsent & Hclosed).
  fold w1 in Hwire. simpl in Hwire.
  assert (Hr : rooms w !! r = Some room) by apply Hb.
  assert (Hnot : ws ∉ clients room).
  { intros Hin. destruct Hb as (_ & Hk & _).
    pose proof (reach_host_not_client _ _ Hw ws r room Hr Hin Hk). congruence. }
  assert (Hopen : forall c,
    bool_decide (c ∈ clients room) && open_in (hang_up w ws) c =
    bool_decide (c ∈ clients room) && open_in w c).
  { intros c. rewrite open_in_hang_up. case_decide as Heq; [|done].
    subst c. by rewrite bool_decide_eq_false_2. }
  assert (Hem : emitted w (mkWorld (delete r (rooms w1)) (socks w1) (wire w1))
                = es).
  { unfold emitted. simpl. by rewrite Hwire, drop_app_length. }
  split; [apply forEach_notify_closed|].
  split; [by rewrite Hrooms|].
  split; [by apply exec_close_host|].
  do 2 (split; [done|]). split; [simpl; by rewrite Hrooms|].
  split; [intros c; by rewrite Hem, Hsent, Hopen|].
  split; [intros c; by rewrite Hem, Hclosed, Hopen|].
  split; [apply lookup_delete_eq|].
  intros ws' message data uuid v Ht Hv Hk.
  rewrite (dispatch_type _ _ _ _ _ _ Ht).
  change (String.eqb "joinRoom" "createRoom") with false.
  change (String.eqb "joinRoom" "joinRoom") with true. cbv iota.
  apply (case_joinRoom_missing ws' data v r); [done..|].
  apply rooms_get_SUndefined. simpl. split; [apply lookup_delete_eq|].
  by eapply reach_room_not_inherited.
Qed.

Lemma host_leaves_witness :
  exists w1 w',
    forEach [1; 2] notify_closed (hang_up w_three 0) = Normal tt w1 /\
    rooms w1 !! uuid1 = Some (mkRoom (Some 0) [1; 2]) /\
    exec (EvClose 0) w_three = Some w' /\
    rooms w' = delete uuid1 (rooms w1) /\
    wire w' = wire w1 /\
    rooms w' = delete uuid1 (rooms w_three) /\
    (forall c, sent_to c (emitted w_three w') =
       if bool_decide (c ∈ [1; 2]) && open_in w_three c
       then [roomClosed_msg] else []) /\
    (forall c, closes_of c (emitted w_three w') =
       if bool_decide (c ∈ [1; 2]) && open_in w_three c then 1 else 0) /\
    rooms w' !! uuid1 = None /\
    (forall ws' message data uuid v,
       Get data "type" = Some (VStr "joinRoom") ->
       Get data "roomId" = Some v ->
       ToString v = Some uuid1 ->
       on_message ws' message (Some data) uuid w' =
         Normal tt (add_wire w' [Sent ws' error_msg])).
Proof.
  apply (host_leaves 0 uuid1 (mkRoom (Some 0) [1; 2]) w_three).
  - apply w_three_reachable.
  - by vm_compute.
  - apply w_three_bound. auto.
  - by vm_compute.
Defined.

(** C2 as worded fails: socket 2 is registered in the room when the host's
    close event fires, but its socket has left the open state, so it is
    neither sent [roomClosed] nor closed by the handler. *)
Lemma roomClosed_skips_closing_client :
  reachable w_three_closing /\
  bound w_three_closing 0 uuid1 (mkRoom (Some 0) [1; 2]) /\
  isHost (sock w_three_closing 0) = true /\
  2 ∈ clients (mkRoom (Some 0) [1; 2]) /\
  exists w',
    exec (EvClose 0) w_three_closing = Some w' /\
    emitted w_three_closing w' = [Sent 1 roomClosed_msg; Closed 1] /\
    sent_to 2 (emitted w_three_closing w') = [] /\
    closes_of 2 (emitted w_three_closing w') = 0.
Proof.
  split; [apply w_three_closing_reachable|].
  split; [apply w_three_closing_bound; auto|].
  split; [by vm_compute|].
  split; [simpl; rewrite !elem_of_cons; auto|].
  exists (default init (exec (EvClose 0) w_three_closing)).
  repeat split; by vm_compute.
Qed.

(** C8, as the code has it.  When the close event fires on a socket bound
    as client to an existing room (in a bind-once run: on any socket listed
    in a room's clients list), that room's clients list loses every entry
    that is this socket and nothing else (order kept), the room stays in
    the registry with the same host, the other rooms and all sockets'
    bindings are as before, and the handler runs the player-list broadcast
    exactly once, for the room as it is after the removal: the payload
    lists the host and one positional entry per remaining client, and the
    leaver is sent nothing.  (A room the socket joined earlier and is no
    longer bound to is left as it is.) *)
Theorem client_leaves ws r room w :
  enabled (EvClose ws) w = true ->
  (bound w ws r room /\ isHost (sock w ws) = false) \/
  (reach bind_once w /\ rooms w !! r = Some room /\ ws ∈ clients room) ->
  let room' := mkRoom (host room) (filter (λ c, c ≠ ws) (clients room)) in
  let payload :=
    Stringify
      (VObj [("type", VStr "playerList");
             ("players",
              VArr ((match host room with
                     | Some _ => [VObj [("id", VStr "host"); ("name", VStr "Host")]]
                     | None => []
                     end)
                    ++ imap (λ (index : nat) (_ : Sock),
               VObj [("id", VStr ("client-" +:+ pretty index));
                     ("name", VStr ("Cliente " +:+ pretty index))])
                         (filter (λ c, c ≠ ws) (clients room))))]) in
  exists w',
    exec (EvClose ws) w = Some w' /\
    rooms w' = <[r := room']> (rooms w) /\
    rooms w' !! r = Some room' /\
    (forall r', r' ≠ r -> rooms w' !! r' = rooms w !! r') /\
    (ws ∉ clients room') /\
    (forall c, (c ∈ clients room') <-> (c ≠ ws /\ c ∈ clients room)) /\
    length (clients room') + occ ws (clients room) = length (clients room) /\
    (forall c, binding w' c = binding w c) /\
    broadcastPlayerList (roomId (sock w ws))
      (mkWorld (<[r := room']> (rooms w)) (socks (hang_up w ws)) (wire w))
      = Normal tt w' /\
    playerList_msg room' = payload /\
    emitted w w' = fanout (hang_up w ws) payload (members room') /\
    (forall c, sent_to c (emitted w w') =
               copies (hang_up w ws) payload (members room') c) /\
    (forall c p, p ∈ sent_to c (emitted w w') -> p = payload /\ c ≠ ws) /\
    sent_to ws (emitted w w') = [].
Proof.
  intros Hen Hcase room' payload.
  assert (Hbh : bound w ws r room /\ isHost (sock w ws) = false).
  { destruct Hcase as [H|(Hw & Hr & Hin)]; [done|].
    by apply bind_once_client_bound. }
  destruct Hbh as [Hb Hh].
  assert (Hpay : playerList_msg room' = payload) by reflexivity.
  set (w2 := mkWorld (<[r := room']> (rooms w)) (socks (hang_up w ws)) (wire w)).
  exists (add_wire w2 (fanout (hang_up w ws) (playerList_msg room') (members room'))).
  split; [by apply exec_close_client|].
  assert (Hcopies : forall c,
    sent_to c (fanout (hang_up w ws) (playerList_msg room') (members room'))
    = copies (hang_up w ws) (playerList_msg room') (members room') c)
    by (intros; apply sent_to_copies).
  assert (Hws : copies (hang_up w ws) (playerList_msg room') (members room') ws
                = []).
  { apply copies_not_open. rewrite open_in_hang_up. by case_decide. }
  split; [done|]. split; [apply lookup_insert_eq|].
  split; [intros r' Hne; simpl; by rewrite lookup_insert_ne|].
  split; [simpl; rewrite list_elem_of_filter; by intros [? _]|].
  split; [intros c; simpl; by rewrite list_elem_of_filter|].
  split; [apply length_filter_ne|].
  split; [intros c; apply (binding_hang_up w ws c)|].
  split.
  { destruct Hb as (_ & Hk & _).
    rewrite (broadcastPlayerList_run _ r room' w2 Hk) by apply lookup_insert_eq.
    by rewrite (fanout_same_socks (hang_up w ws) w2). }
  split; [done|].
  assert (Hem : emitted w (add_wire w2
            (fanout (hang_up w ws) (playerList_msg room') (members room')))
          = fanout (hang_up w ws) (playerList_msg room') (members room')).
  { unfold emitted. simpl. by rewrite drop_app_length. }
  rewrite Hem, <- Hpay. split; [done|]. split; [done|].
  split; [|by rewrite Hcopies].
  intros c p. rewrite Hcopies. intros Hp. split.
  - unfold copies in Hp. destruct (open_in (hang_up w ws) c);
      [|by apply elem_of_nil in Hp].
    by apply elem_of_replicate in Hp as [-> _].
  - intros ->. rewrite Hws in Hp. by apply elem_of_nil in Hp.
Qed.

Lemma client_leaves_witness :
  enabled (EvClose 1) w_three = true /\
  (reach bind_once w_three /\
   rooms w_three !! uuid1 = Some (mkRoom (Some 0) [1; 2]) /\
   1 ∈ [1; 2]) /\
  exists w',
    exec (EvClose 1) w_three = Some w' /\
    rooms w' !! uuid1 = Some (mkRoom (Some 0) [2]) /\
    emitted w_three w' =
      fanout (hang_up w_three 1)
        (Stringify
           (VObj [("type", VStr "playerList");
                  ("players",
                   VArr [VObj [("id", VStr "host"); ("name", VStr "Host")];
                         VObj [("id", VStr "client-0");
                               ("name", VStr "Cliente 0")]])]))
        [0; 2] /\
    sent_to 1 (emitted w_three w') = [].
Proof.
  assert (Hen : enabled (EvClose 1) w_three = true) by by vm_compute.
  assert (Hcase : reach bind_once w_three /\
                  rooms w_three !! uuid1 = Some (mkRoom (Some 0) [1; 2]) /\
                  1 ∈ [1; 2]).
  { split; [apply w_three_bind_once|]. split; [apply w_three_room|].
    apply list_elem_of_here. }
  split; [exact Hen|]. split; [exact Hcase|].
  destruct (client_leaves 1 uuid1 (mkRoom (Some 0) [1; 2]) w_three Hen
              (or_intror Hcase))
    as (w' & Hex & _ & Hr & _ & _ & _ & _ & _ & _ & _ & Hem & _ & _ & Hws).
  exists w'. split; [exact Hex|]. split; [exact Hr|].
  split; [exact Hem|exact Hws].
Defined.

(** C8 as worded fails: socket 2 joined the room of socket 0 and then the
    room of socket 1.  When it disconnects it is removed from the second
    room only: it stays in the clients list of the first room, and the
    host of the first room is sent no player list. *)
Lemma departed_client_stays_listed :
  reachable w_joined_two /\
  is_client_of w_joined_two 2 uuid1 /\
  isHost (sock w_joined_two 2) = false /\
  enabled (EvClose 2) w_joined_two = true /\
  exists w',
    exec (EvClose 2) w_joined_two = Some w' /\
    rooms w' !! uuid1 = Some (mkRoom (Some 0) [2]) /\
    rooms w' !! uuid2 = Some (mkRoom (Some 1) []) /\
    sent_to 0 (emitted w_joined_two w') = [].
Proof.
  split; [apply (run_reachable client_joins_two_rooms); by vm_compute|].
  split.
  { exists (mkRoom (Some 0) [2]). split; [by vm_compute|].
    apply list_elem_of_here. }
  split; [by vm_compute|]. split; [by vm_compute|].
  exists (default init (exec (EvClose 2) w_joined_two)).
  repeat split; by vm_compute.
Qed.

(** * Further properties of the handlers *)

(** ** Creating and joining *)

Lemma case_joinRoom_found_eq ws data v key room w :
  Get data "roomId" = Some v ->
  ToString v = Some key ->
  rooms w !! key = Some room ->
  let room' := mkRoom (host room) (clients room ++ [ws]) in
  case_joinRoom ws data w =
    Normal tt (add_wire (joined w ws v key room)
                 (fanout w (playerList_msg room') (members room'))).
Proof.
  intros Hv Hk Hr room'. unfold case_joinRoom.
  rewrite bind_run, Hv. simpl. rewrite bind_run, Hk. simpl.
  rewrite bind_run. unfold rooms_at, rooms_get. rewrite Hr.
  rewrite set_roomId_isHost_run, bind_run. unfold rooms_put at 1.
  rewrite (broadcastPlayerList_run v key room')
    by (done || apply lookup_insert_eq).
  unfold joined, add_wire. simpl. do 3 f_equal.
  apply fanout_same_open. intros c. apply open_in_rebind.
Qed.

Lemma emitted_add_wire_from w w0 es :
  wire w0 = wire w -> emitted w (add_wire w0 es) = es.
Proof.
  intros Hw. unfold emitted, add_wire. simpl. by rewrite Hw, drop_app_length.
Qed.

Lemma dispatch_createRoom ws message data uuid w :
  Get data "type" = Some (VStr "createRoom") ->
  on_message ws message (Some data) uuid w = case_createRoom ws uuid w.
Proof. intros Ht. by rewrite (dispatch_type _ _ _ _ _ _ Ht). Qed.

Lemma dispatch_joinRoom ws message data uuid w :
  Get data "type" = Some (VStr "joinRoom") ->
  on_message ws message (Some data) uuid w = case_joinRoom ws data w.
Proof. intros Ht. by rewrite (dispatch_type _ _ _ _ _ _ Ht). Qed.

(** X1. [createRoom] always succeeds, whatever the sender's state: the
    registry gets a room under the new identifier with the sender as host
    and no clients, every other entry is kept, the sender's fields become
    [roomId = id, isHost = true], no other socket's fields and nobody's
    [readyState] change, and the only message is [{type: 'roomCreated',
    roomId: id}] to the sender. *)
Theorem createRoom_effect ws message data uuid w :
  Get data "type" = Some (VStr "createRoom") ->
  exists w',
    on_message ws message (Some data) uuid w = Normal tt w' /\
    rooms w' !! uuid = Some (mkRoom (Some ws) []) /\
    (forall r, r ≠ uuid -> rooms w' !! r = rooms w !! r) /\
    binding w' ws = (VStr uuid, true) /\
    (forall c, c ≠ ws -> binding w' c = binding w c) /\
    (forall c, open_in w' c = open_in w c) /\
    emitted w w' = [Sent ws (roomCreated_msg uuid)].
Proof.
  intros Ht. rewrite (dispatch_createRoom _ _ _ _ _ Ht).
  destruct (case_createRoom_run ws uuid w)
    as (w' & Hrun & Hrooms & Hb & Hothers & Hopen & Hwire).
  exists w'. split; [done|]. rewrite Hrooms.
  split; [apply lookup_insert_eq|].
  split; [intros r Hne; by rewrite lookup_insert_ne|].
  do 3 (split; [done|]). unfold emitted. by rewrite Hwire, drop_app_length.
Qed.

Lemma createRoom_effect_witness :
  exists w',
    on_message 3 "{...}" (Some (msg "createRoom")) uuid2 w_three_and_guest
      = Normal tt w' /\
    rooms w' !! uuid2 = Some (mkRoom (Some 3) []) /\
    (forall r, r ≠ uuid2 -> rooms w' !! r = rooms w_three_and_guest !! r) /\
    binding w' 3 = (VStr uuid2, true) /\
    (forall c, c ≠ 3 -> binding w' c = binding w_three_and_guest c) /\
    (forall c, open_in w' c = open_in w_three_and_guest c) /\
    emitted w_three_and_guest w' = [Sent 3 (roomCreated_msg uuid2)].
Proof.
  apply (createRoom_effect 3 "{...}" (msg "createRoom") uuid2
           w_three_and_guest).
  reflexivity.
Defined.

(** X2. A [joinRoom] for an existing room appends the sender at the end of
    that room's clients list (join order), keeps the room's host and every
    other room, sets the sender's fields to [roomId = the roomId received,
    isHost = false] without touching any other socket's fields, and sends
    the player list of the room as it is after the join, once for the host
    slot and once per clients entry, to the sockets that are open; the joiner
    is the last entry. *)
Theorem joinRoom_effect ws message data uuid v key room w :
  Get data "type" = Some (VStr "joinRoom") ->
  Get data "roomId" = Some v ->
  ToString v = Some key ->
  rooms w !! key = Some room ->
  let room' := mkRoom (host room) (clients room ++ [ws]) in
  exists w',
    on_message ws message (Some data) uuid w = Normal tt w' /\
    rooms w' !! key = Some room' /\
    (forall r, r ≠ key -> rooms w' !! r = rooms w !! r) /\
    binding w' ws = (v, false) /\
    (forall c, c ≠ ws -> binding w' c = binding w c) /\
    (forall c, open_in w' c = open_in w c) /\
    emitted w w' = fanout w (playerList_msg room') (members room') /\
    (forall c, sent_to c (emitted w w') =
               copies w (playerList_msg room') (members room') c) /\
    (open_in w ws = true -> playerList_msg room' ∈ sent_to ws (emitted w w')).
Proof.
  intros Ht Hv Hk Hr room'. rewrite (dispatch_joinRoom _ _ _ _ _ Ht).
  rewrite (case_joinRoom_found_eq ws data v key room w Hv Hk Hr).
  fold room'. eexists. split; [reflexivity|].
  rewrite emitted_add_wire_from by done. simpl.
  split; [apply lookup_insert_eq|].
  split; [intros r Hne; by rewrite lookup_insert_ne|].
  split; [apply binding_rebind_eq|].
  split; [apply binding_rebind_ne|].
  split; [apply open_in_rebind|].
  split; [done|]. split; [intros c; apply sent_to_copies|].
  intros Ho. rewrite sent_to_copies. apply copies_member; [|done].
  unfold members, room'. simpl. rewrite !elem_of_app, list_elem_of_singleton.
  auto.
Qed.

Lemma joinRoom_effect_witness :
  exists w',
    on_message 3 "{...}" (Some (joinRoom_of uuid1)) uuid2 w_three_and_guest
      = Normal tt w' /\
    rooms w' !! uuid1 = Some (mkRoom (Some 0) [1; 2; 3]) /\
    (forall r, r ≠ uuid1 -> rooms w' !! r = rooms w_three_and_guest !! r) /\
    binding w' 3 = (VStr uuid1, false) /\
    (forall c, c ≠ 3 -> binding w' c = binding w_three_and_guest c) /\
    (forall c, open_in w' c = open_in w_three_and_guest c) /\
    emitted w_three_and_guest w' =
      fanout w_three_and_guest (playerList_msg (mkRoom (Some 0) [1; 2; 3]))
        (members (mkRoom (Some 0) [1; 2; 3])) /\
    (forall c, sent_to c (emitted w_three_and_guest w') =
               copies w_three_and_guest
                 (playerList_msg (mkRoom (Some 0) [1; 2; 3]))
                 (members (mkRoom (Some 0) [1; 2; 3])) c) /\
    (open_in w_three_and_guest 3 = true ->
     playerList_msg (mkRoom (Some 0) [1; 2; 3])
       ∈ sent_to 3 (emitted w_three_and_guest w')).
Proof.
  apply (joinRoom_effect 3 "{...}" (joinRoom_of uuid1) uuid2 (VStr uuid1)
           uuid1 (mkRoom (Some 0) [1; 2]) w_three_and_guest).
  - reflexivity.
  - reflexivity.
  - reflexivity.
  - by vm_compute.
Defined.

(** ** Frames that are routed through the sender's room *)

(** X3. [startGame] is honoured only from a socket whose [isHost] flag is
    set: bound to an existing room, such a socket makes the server send
    [{type: 'startGame'}] once for the host slot and once per clients entry,
    to the sockets that are open, the sender included; from a socket bound
    as client the frame is dropped.  Either way registry and socket fields
    stay as they were. *)
Theorem startGame_effect ws message data uuid r room w :
  Get data "type" = Some (VStr "startGame") ->
  bound w ws r room ->
  exists w',
    on_message ws message (Some data) uuid w = Normal tt w' /\
    rooms w' = rooms w /\
    socks w' = socks w /\
    emitted w w' =
      (if isHost (sock w ws)
       then fanout w (Stringify startGame_obj) (members room)
       else []) /\
    (isHost (sock w ws) = true ->
     forall c, sent_to c (emitted w w') =
               copies w (Stringify startGame_obj) (members room) c).
Proof.
  intros Ht Hb. rewrite (dispatch_type _ _ _ _ _ _ Ht).
  change (String.eqb "startGame" "createRoom") with false.
  change (String.eqb "startGame" "joinRoom") with false.
  change (String.eqb "startGame" "startGame") with true. cbv iota.
  unfold case_startGame. rewrite bind_run. simpl.
  destruct (isHost (sock w ws)) eqn:Hh.
  - rewrite bind_run, (bound_room_run _ _ _ _ Hb).
    destruct Hb as (_ & Hk & Hr).
    rewrite (broadcastInRoom_run _ _ r room) by done.
    eexists. split; [reflexivity|]. rewrite emitted_add_wire.
    do 3 (split; [done|]). intros _ c. apply sent_to_copies.
  - exists w. unfold emitted. rewrite drop_all. by repeat split.
Qed.

Lemma startGame_effect_witness :
  exists w',
    on_message 0 "{...}" (Some (msg "startGame")) uuid2 w_three
      = Normal tt w' /\
    rooms w' = rooms w_three /\
    socks w' = socks w_three /\
    emitted w_three w' =
      (if isHost (sock w_three 0)
       then fanout w_three (Stringify startGame_obj)
              (members (mkRoom (Some 0) [1; 2]))
       else []) /\
    (isHost (sock w_three 0) = true ->
     forall c, sent_to c (emitted w_three w') =
               copies w_three (Stringify startGame_obj)
                 (members (mkRoom (Some 0) [1; 2])) c).
Proof.
  apply (startGame_effect 0 "{...}" (msg "startGame") uuid2 uuid1
           (mkRoom (Some 0) [1; 2]) w_three).
  - reflexivity.
  - apply w_three_bound. auto.
Defined.

(** X4. A frame that does not parse, or that parses to a value with a [type]
    that is not a string or is none of the eight types of the [switch], is
    dropped: no reply, no change. *)
Theorem unhandled_frame_dropped ws message parsed uuid w :
  parsed = None \/
  (exists data ty,
     parsed = Some data /\ Get data "type" = Some ty /\
     forall t, ty = VStr t -> t ∉ known_types) ->
  on_message ws message parsed uuid w = Normal tt w.
Proof.
  intros [->|(data & ty & -> & Hty & Hunknown)]; [done|].
  unfold on_message. rewrite bind_run, Hty. simpl.
  destruct ty as [| |b|n|t|l|fs]; try done.
  specialize (Hunknown t eq_refl). unfold known_types in Hunknown.
  repeat match goal with
         | |- context [String.eqb t ?s] =>
             destruct (String.eqb_spec t s) as [->|_];
             [exfalso; apply Hunknown; rewrite !elem_of_cons; auto 10|]
         end.
  done.
Qed.

Lemma unhandled_frame_dropped_witness :
  on_message 1 "{...}" (Some (msg "ping")) uuid2 w_three = Normal tt w_three.
Proof.
  apply (unhandled_frame_dropped 1 "{...}" (Some (msg "ping")) uuid2 w_three).
  right. exists (msg "ping"), (VStr "ping").
  split; [reflexivity|]. split; [reflexivity|].
  intros t [= <-]. unfold known_types. rewrite !elem_of_cons, elem_of_nil.
  intros H. repeat (destruct H as [H|H]; [discriminate H|]). done.
Defined.

Lemma bound_room_roomless w ws :
  roomless w ws -> bound_room ws w = Normal SUndefined w.
Proof.
  intros [Hf|(key & Hk & Hs)]; unfold bound_room; rewrite bind_run; simpl.
  - by rewrite Hf.
  - destruct (ToBoolean (roomId (sock w ws))); [|done].
    rewrite bind_run, Hk. simpl. unfold rooms_at. by rewrite Hs.
Qed.

Lemma roomless_frame ws message data uuid t w :
  roomless w ws ->
  t ∈ room_types -> Get data "type" = Some (VStr t) ->
  on_message ws message (Some data) uuid w = Normal tt w.
Proof.
  intros Hless Hin Ht. pose proof (bound_room_roomless _ _ Hless) as Hbr.
  rewrite (dispatch_type _ _ _ _ _ _ Ht).
  unfold room_types in Hin. rewrite !elem_of_cons, elem_of_nil in Hin.
  destruct Hin as [->|[->|[->|[->|[->|[->|[]]]]]]]; simpl.
  - unfold case_startGame. rewrite bind_run. simpl.
    destruct (isHost (sock w ws)); [|done]. by rewrite bind_run, Hbr.
  - unfold handleWebRTCSignaling. by rewrite bind_run, Hbr.
  - unfold handleWebRTCSignaling. by rewrite bind_run, Hbr.
  - unfold handleWebRTCSignaling. by rewrite bind_run, Hbr.
  - unfold case_gameState. by rewrite bind_run, Hbr.
  - unfold case_input. rewrite bind_run. simpl.
    destruct (isHost (sock w ws)); [done|]. by rewrite bind_run, Hbr.
Qed.

Lemma roomless_close ws w : roomless w ws -> on_close ws w = Normal tt w.
Proof.
  intros Hless. unfold on_close.
  by rewrite bind_run, (bound_room_roomless _ _ Hless).
Qed.

(** X5. A socket that is not bound, or whose room has been deleted, is
    ignored: its [startGame], [offer], [answer], [candidate], [gameState]
    and [input] frames change nothing and reach nobody, and its close event
    changes nothing either. *)
Theorem roomless_socket_ignored ws w :
  roomless w ws ->
  (forall message data uuid t,
     t ∈ room_types -> Get data "type" = Some (VStr t) ->
     on_message ws message (Some data) uuid w = Normal tt w) /\
  on_close ws w = Normal tt w.
Proof.
  intros Hless. split.
  - intros message data uuid t. by apply roomless_frame.
  - by apply roomless_close.
Qed.

Lemma roomless_socket_ignored_witness :
  roomless w_after_host_left 1 /\
  (forall message data uuid t,
     t ∈ room_types -> Get data "type" = Some (VStr t) ->
     on_message 1 message (Some data) uuid w_after_host_left
       = Normal tt w_after_host_left) /\
  on_close 1 w_after_host_left = Normal tt w_after_host_left.
Proof.
  assert (H : roomless w_after_host_left 1).
  { right. exists uuid1. split; by vm_compute. }
  split; [exact H|].
  apply (roomless_socket_ignored 1 w_after_host_left H).
Defined.

(** ** Bindings of reachable worlds *)

Lemma reach_bindings_sound ok w : reach ok w -> bindings_sound w.
Proof.
  apply reach_invariant.
  - intros c. by left.
  - intros e w0 w' Hw _ Hch Hsound c.
    pose proof (reach_keys_are_uuids _ _ Hw) as Hkeys.
    destruct Hch
      as [e w0 w' [_ Hb]|ws m d uuid w0 w' _ _ Hlen _ Hb Hothers
         |ws m d uuid v key room w0 w' _ Hv Hkey _ Hb Hothers
         |ws key room w0 w' _ _ _ Hb|ws key room w0 w' _ _ _ Hb].
    + destruct (binding_fields _ _ _ (Hb c)) as [-> _]. apply Hsound.
    + destruct (decide (c = ws)) as [->|Hne].
      * apply binding_pair in Hb as [-> _]. right. by exists uuid.
      * destruct (binding_fields _ _ _ (Hothers c Hne)) as [-> _]. apply Hsound.
    + destruct (decide (c = ws)) as [->|Hne].
      * apply binding_pair in Hb as [-> _]. right. exists key.
        split; [done|]. apply Hkeys. by rewrite Hkey.
      * destruct (binding_fields _ _ _ (Hothers c Hne)) as [-> _]. apply Hsound.
    + destruct (binding_fields _ _ _ (Hb c)) as [-> _]. apply Hsound.
    + destruct (binding_fields _ _ _ (Hb c)) as [-> _]. apply Hsound.
Qed.

(** In a reachable world a socket is bound to a room or roomless; its
    [roomId] never fails to convert and never names an inherited member. *)
Lemma reach_bound_or_roomless ok w ws :
  reach ok w -> (exists r room, bound w ws r room) \/ roomless w ws.
Proof.
  intros Hw. destruct (reach_bindings_sound _ _ Hw ws) as [Hnull|(key & Hk & Hlen)].
  - right. left. by rewrite Hnull.
  - destruct (rooms w !! key) as [room|] eqn:Hr.
    + left. exists key, room. split; [by eapply truthy_uuid|done].
    + right. right. exists key. split; [done|].
      apply rooms_get_SUndefined. split; [done|].
      destruct (inherited key) eqn:Hin; [|done].
      by apply inherited_length in Hin.
Qed.

(** ** Who is reached by a step *)

Lemma targets_app a b : targets (a ++ b) = targets a ++ targets b.
Proof.
  induction a as [|[c p|c] a IH]; simpl; [done|by rewrite IH..].
Qed.

Lemma targets_fanout c w p l :
  c ∈ targets (fanout w p l) -> c ∈ l /\ open_in w c = true.
Proof.
  induction l as [|c' l IH]; simpl; [by intros ?%elem_of_nil|].
  rewrite targets_app, elem_of_app. intros [Hin|Hin].
  - destruct (open_in w c') eqn:Ho; simpl in Hin; [|by apply elem_of_nil in Hin].
    apply list_elem_of_singleton in Hin as ->. split; [apply list_elem_of_here|done].
  - destruct (IH Hin). split; [by apply list_elem_of_further|done].
Qed.

Lemma closes_of_fanout c w p l : closes_of c (fanout w p l) = 0.
Proof.
  induction l as [|c' l IH]; simpl; [done|].
  rewrite closes_of_app, IH. by destruct (open_in w c').
Qed.

Lemma targets_seen c es :
  c ∈ targets es -> sent_to c es ≠ [] \/ closes_of c es ≠ 0.
Proof.
  induction es as [|[c' p|c'] es IH]; simpl.
  - by intros ?%elem_of_nil.
  - intros [->|Hin]%elem_of_cons.
    + rewrite Nat.eqb_refl. by left.
    + destruct (IH Hin) as [H|H]; [|by right].
      left. by destruct (Nat.eqb c c').
  - intros [->|Hin]%elem_of_cons.
    + rewrite Nat.eqb_refl. by right.
    + destruct (IH Hin) as [H|H]; [by left|].
      right. destruct (Nat.eqb c c'); lia.
Qed.

Lemma members_clients room c : c ∈ clients room -> c ∈ members room.
Proof. intros Hc. unfold members. rewrite elem_of_app. by right. Qed.

Lemma members_host room h : host room = Some h -> h ∈ members room.
Proof. intros Hh. unfold members. rewrite Hh. apply list_elem_of_here. Qed.

Lemma broadcastInRoom_shape ws obj w w' s :
  bound_room ws w = Normal s w ->
  s ≠ SUndefined ->
  broadcastInRoom (roomId (sock w ws)) obj w = Normal tt w' ->
  room_shaped w ws w'.
Proof.
  intros Hbr Hs. pose proof (bound_room_cases ws w) as Hc. rewrite Hbr in Hc.
  destruct s as [|room|]; [done| |].
  - destruct Hc as [_ (r & Hb)]. pose proof Hb as (_ & Hk & Hr).
    rewrite (broadcastInRoom_run _ _ r room) by done. intros [= <-].
    right. by exists r, room, (Stringify obj), (members room).
  - revert Hbr. unfold bound_room, broadcastInRoom. rewrite !bind_run. simpl.
    destruct (ToBoolean (roomId (sock w ws))); [|done].
    rewrite bind_run. destruct (ToString (roomId (sock w ws))); [|done]. simpl.
    unfold rooms_at. intros [= Hg]. by rewrite bind_run, Hg.
Qed.

Lemma case_gameState_shape ws data w w' :
  case_gameState ws data w = Normal tt w' -> room_shaped w ws w'.
Proof.
  unfold case_gameState. rewrite bind_run.
  pose proof (bound_room_cases ws w) as Hc.
  destruct (bound_room ws w) as [s w1|w1] eqn:Hbr; [|done].
  assert (w1 = w) as -> by (destruct s; by try destruct Hc).
  rewrite bind_run. simpl. destruct s as [|room|].
  - intros [= <-]. by left.
  - by apply (broadcastInRoom_shape ws data w w' (SRoom room)).
  - by apply (broadcastInRoom_shape ws data w w' SInherited).
Qed.

Lemma case_startGame_shape ws w w' :
  case_startGame ws w = Normal tt w' -> room_shaped w ws w'.
Proof.
  unfold case_startGame. rewrite bind_run. simpl.
  destruct (isHost (sock w ws)); [|intros [= <-]; by left].
  rewrite bind_run. pose proof (bound_room_cases ws w) as Hc.
  destruct (bound_room ws w) as [s w1|w1] eqn:Hbr; [|done].
  assert (w1 = w) as -> by (destruct s; by try destruct Hc).
  destruct s as [|room|].
  - intros [= <-]. by left.
  - by apply (broadcastInRoom_shape ws _ w w' (SRoom room)).
  - by apply (broadcastInRoom_shape ws _ w w' SInherited).
Qed.

Lemma handleWebRTCSignaling_shape ws data w w' :
  handleWebRTCSignaling ws data w = Normal tt w' -> room_shaped w ws w'.
Proof.
  unfold handleWebRTCSignaling. rewrite bind_run.
  pose proof (bound_room_cases ws w) as Hc.
  destruct (bound_room ws w) as [s w1|w1] eqn:Hbr; [|done].
  assert (w1 = w) as -> by (destruct s; by try destruct Hc).
  rewrite bind_run. simpl. destruct s as [|room|].
  - intros [= <-]. by left.
  - destruct Hc as [_ (r & Hb)]. destruct (isHost (sock w ws)).
    + rewrite forEach_send_if_open. intros [= <-]. right.
      exists r, room, (Stringify data), (clients room).
      split; [done|]. split; [done|]. apply members_clients.
    + destruct (host room) as [h|] eqn:Hh; [|intros [= <-]; by left].
      rewrite send_if_open_run. intros [= <-]. right.
      exists r, room, (Stringify data), [h]. split; [done|].
      split; [simpl; by rewrite app_nil_r|].
      intros c ->%list_elem_of_singleton. by apply members_host.
  - destruct (isHost (sock w ws)); [done|]. intros [= <-]. by left.
Qed.

Lemma case_input_shape ws message w w' :
  case_input ws message w = Normal tt w' -> room_shaped w ws w'.
Proof.
  unfold case_input. rewrite bind_run. simpl.
  destruct (isHost (sock w ws)); [intros [= <-]; by left|].
  rewrite bind_run. pose proof (bound_room_cases ws w) as Hc.
  destruct (bound_room ws w) as [s w1|w1] eqn:Hbr; [|done].
  assert (w1 = w) as -> by (destruct s; by try destruct Hc).
  destruct s as [|room|]; [intros [= <-]; by left| |intros [= <-]; by left].
  destruct Hc as [_ (r & Hb)].
  destruct (host room) as [h|] eqn:Hh; [|intros [= <-]; by left].
  rewrite send_if_open_run. intros [= <-]. right.
  exists r, room, (Raw message), [h]. split; [done|].
  split; [simpl; by rewrite app_nil_r|].
  intros c ->%list_elem_of_singleton. by apply members_host.
Qed.

Lemma room_shaped_emitted w ws w' :
  room_shaped w ws w' ->
  exists es,
    w' = add_wire w es /\
    (forall c, closes_of c es = 0) /\
    within_room w ws es.
Proof.
  intros [->|(r & room & p & l & Hb & -> & Hl)].
  - exists []. rewrite add_wire_nil. split; [done|]. split; [done|].
    by intros c ?%elem_of_nil.
  - exists (fanout w p l). split; [done|].
    split; [intros c; apply closes_of_fanout|].
    intros c [Hin _]%targets_fanout. right. destruct Hb as (_ & Hk & Hr).
    exists r, room. auto.
Qed.

(** What any frame puts on the wire, whenever the handler returns. *)
Lemma on_message_emitted ws message parsed uuid w w' :
  on_message ws message parsed uuid w = Normal tt w' ->
  exists es,
    wire w' = wire w ++ es /\
    (forall c, closes_of c es = 0) /\
    within_room w' ws es /\
    (forall c, open_in w' c = open_in w c).
Proof.
  assert (Hnil : forall w0, exists es : list effect,
            wire w0 = wire w0 ++ es /\ (forall c, closes_of c es = 0) /\
            within_room w0 ws es /\ (forall c, open_in w0 c = open_in w0 c)).
  { intros w0. exists []. rewrite app_nil_r. repeat split; try done.
    by intros c ?%elem_of_nil. }
  assert (Hshape : room_shaped w ws w' ->
    exists es, wire w' = wire w ++ es /\ (forall c, closes_of c es = 0) /\
               within_room w' ws es /\ (forall c, open_in w' c = open_in w c)).
  { intros (es & -> & Hcl & Hin)%room_shaped_emitted. by exists es. }
  destruct parsed as [data|]; simpl; [|intros [= <-]; apply Hnil].
  rewrite bind_run.
  destruct (Get data "type") as [ty|] eqn:Hty; simpl; [|done].
  destruct ty as [| |b|n|t|l|fs]; try (intros [= <-]; apply Hnil).
  destruct (String.eqb_spec t "createRoom") as [->|_].
  { destruct (case_createRoom_run ws uuid w)
      as (w1 & -> & _ & _ & _ & Hopen & Hwire).
    intros [= <-]. exists [Sent ws (roomCreated_msg uuid)].
    split; [done|]. split; [done|]. split; [|done].
    intros c ->%list_elem_of_singleton. by left. }
  destruct (String.eqb_spec t "joinRoom") as [->|_].
  { destruct (Get_roomId_defined _ _ Hty) as [v Hv].
    unfold case_joinRoom at 1. rewrite bind_run, Hv. simpl. rewrite bind_run.
    destruct (ToString v) as [key|] eqn:Hk; simpl; [|done].
    rewrite bind_run. unfold rooms_at at 1, rooms_get.
    destruct (rooms w !! key) as [room|] eqn:Hr.
    - pose proof (case_joinRoom_found_eq ws data v key room w Hv Hk Hr) as Hrun.
      revert Hrun. unfold case_joinRoom at 1.
      rewrite bind_run, Hv. simpl. rewrite bind_run, Hk. simpl.
      rewrite bind_run. unfold rooms_at at 1, rooms_get. rewrite Hr.
      intros ->. intros [= <-]. eexists. split; [reflexivity|].
      split; [intros c; apply closes_of_fanout|]. split.
      + intros c [Hin _]%targets_fanout. right.
        exists key, (mkRoom (host room) (clients room ++ [ws])).
        destruct (binding_pair _ _ _ _ (binding_rebind_eq w ws v false))
          as [Hid _].
        split; [unfold sock in *; simpl in *; by rewrite Hid|].
        split; [apply lookup_insert_eq|done].
      + apply open_in_rebind.
    - destruct (inherited key).
      + by rewrite set_roomId_isHost_run.
      + intros [= <-]. exists [Sent ws error_msg].
        split; [done|]. split; [done|]. split; [|done].
        intros c ->%list_elem_of_singleton. by left. }
  destruct (String.eqb t "startGame");
    [intros H; by apply Hshape, case_startGame_shape|].
  destruct (String.eqb t "offer");
    [intros H; by eapply Hshape, handleWebRTCSignaling_shape|].
  destruct (String.eqb t "answer");
    [intros H; by eapply Hshape, handleWebRTCSignaling_shape|].
  destruct (String.eqb t "candidate");
    [intros H; by eapply Hshape, handleWebRTCSignaling_shape|].
  destruct (String.eqb t "gameState");
    [intros H; by eapply Hshape, case_gameState_shape|].
  destruct (String.eqb t "input");
    [intros H; by eapply Hshape, case_input_shape|].
  intros [= <-]. apply Hnil.
Qed.

(** X6. Room isolation of frames.  Whatever a socket sends, and whatever
    state the server is in, every [send] the handler makes goes to the
    sender itself or to a socket listed (as host or client) in the room the
    sender is bound to after the frame; no frame reaches a socket of another
    room. *)
Theorem frame_stays_in_room ws message parsed uuid w w' :
  on_message ws message parsed uuid w = Normal tt w' ->
  within_room w' ws (emitted w w').
Proof.
  intros (es & Hwire & _ & Hin & _)%on_message_emitted.
  unfold emitted. by rewrite Hwire, drop_app_length.
Qed.

Lemma frame_stays_in_room_witness :
  on_message 1 "{...}" (Some (msg "gameState")) uuid2 w_three
    = Normal tt (after_frame 1 (msg "gameState") w_three) /\
  0 ∈ targets (emitted w_three (after_frame 1 (msg "gameState") w_three)) /\
  (0 = 1 \/
   exists r room,
     ToString (roomId (sock (after_frame 1 (msg "gameState") w_three) 1))
       = Some r /\
     rooms (after_frame 1 (msg "gameState") w_three) !! r = Some room /\
     0 ∈ members room).
Proof.
  assert (Hrun : on_message 1 "{...}" (Some (msg "gameState")) uuid2 w_three
                 = Normal tt (after_frame 1 (msg "gameState") w_three))
    by by vm_compute.
  assert (Hin : 0 ∈ targets (emitted w_three
                               (after_frame 1 (msg "gameState") w_three))).
  { replace (targets (emitted w_three (after_frame 1 (msg "gameState") w_three)))
      with [0; 1; 2] by by vm_compute.
    apply list_elem_of_here. }
  split; [exact Hrun|]. split; [exact Hin|].
  exact (frame_stays_in_room 1 "{...}" (Some (msg "gameState")) uuid2 w_three
           _ Hrun 0 Hin).
Defined.

(** X7. No frame makes the server call [close()] on a socket, and no frame
    changes whether a socket counts as open: message handling only
    sends. *)
Theorem frame_closes_nothing ws message parsed uuid w w' :
  on_message ws message parsed uuid w = Normal tt w' ->
  forall c, closes_of c (emitted w w') = 0 /\ open_in w' c = open_in w c.
Proof.
  intros (es & Hwire & Hcl & _ & Hopen)%on_message_emitted c.
  unfold emitted. by rewrite Hwire, drop_app_length.
Qed.

Lemma frame_closes_nothing_witness :
  on_message 0 "{...}" (Some (msg "startGame")) uuid2 w_three
    = Normal tt (after_frame 0 (msg "startGame") w_three) /\
  closes_of 1 (emitted w_three (after_frame 0 (msg "startGame") w_three)) = 0 /\
  open_in (after_frame 0 (msg "startGame") w_three) 1 = open_in w_three 1.
Proof.
  assert (Hrun : on_message 0 "{...}" (Some (msg "startGame")) uuid2 w_three
                 = Normal tt (after_frame 0 (msg "startGame") w_three))
    by by vm_compute.
  split; [exact Hrun|].
  exact (frame_closes_nothing 0 "{...}" (Some (msg "startGame")) uuid2 w_three
           _ Hrun 1).
Defined.

(** ** What the process survives *)

Lemma bound_frame_normal ws message data uuid t r room w :
  bound w ws r room ->
  t ∈ room_types -> Get data "type" = Some (VStr t) ->
  exists w', on_message ws message (Some data) uuid w = Normal tt w'.
Proof.
  intros Hb Hin Ht. pose proof (bound_room_run _ _ _ _ Hb) as Hbr.
  pose proof Hb as (_ & Hk & Hr).
  rewrite (dispatch_type _ _ _ _ _ _ Ht).
  unfold room_types in Hin. rewrite !elem_of_cons, elem_of_nil in Hin.
  destruct Hin as [->|[->|[->|[->|[->|[->|[]]]]]]]; simpl;
    unfold case_startGame, handleWebRTCSignaling, case_gameState, case_input;
    rewrite bind_run; simpl; rewrite ?Hbr, ?bind_run; simpl;
    destruct (isHost (sock w ws)); rewrite ?bind_run, ?Hbr;
    rewrite ?(broadcastInRoom_run _ _ r room) by done;
    rewrite ?forEach_send_if_open; eauto;
    destruct (host room); rewrite ?send_if_open_run; eauto.
Qed.

Lemma roomless_hang_up w ws c : roomless w c -> roomless (hang_up w ws) c.
Proof.
  unfold roomless.
  destruct (binding_fields _ _ _ (binding_hang_up w ws c)) as [-> _]. done.
Qed.

Lemma fatal_frame_throws ws message parsed uuid w :
  reachable w ->
  match on_message ws message parsed uuid w with
  | Normal _ _ => fatal_frame w parsed = false
  | Throw _ => fatal_frame w parsed = true
  end.
Proof.
  intros Hw. destruct parsed as [data|]; simpl; [|done].
  rewrite bind_run.
  destruct (Get data "type") as [ty|] eqn:Hty; simpl; [|done].
  destruct ty as [| |b|n|t|l|fs]; try done.
  destruct (String.eqb_spec t "createRoom") as [->|_].
  { by destruct (case_createRoom_run ws uuid w) as (w1 & -> & _). }
  destruct (String.eqb_spec t "joinRoom") as [->|Hnj].
  { destruct (Get_roomId_defined _ _ Hty) as [v Hv]. rewrite Hv. simpl.
    unfold case_joinRoom. rewrite bind_run, Hv. simpl. rewrite bind_run.
    destruct (ToString v) as [key|] eqn:Hk; simpl; [|done].
    rewrite bind_run. unfold rooms_at at 1.
    destruct (rooms_get (rooms w) key) as [|room|] eqn:Hg; [done| |].
    - unfold rooms_get in Hg. destruct (rooms w !! key) as [room0|] eqn:Hr;
        [|by destruct (inherited key)].
      injection Hg as ->.
      pose proof (case_joinRoom_found_eq ws data v key room w Hv Hk Hr) as Hrun.
      revert Hrun. unfold case_joinRoom.
      rewrite bind_run, Hv. simpl. rewrite bind_run, Hk. simpl.
      rewrite bind_run. unfold rooms_at at 1, rooms_get. rewrite Hr.
      by intros ->.
    - by rewrite set_roomId_isHost_run. }
  simpl.
  assert (Hroom : t ∈ room_types ->
    exists w', on_message ws message (Some data) uuid w = Normal tt w').
  { intros Hin. destruct (reach_bound_or_roomless _ w ws Hw)
      as [(r & room & Hb)|Hless].
    - by eapply bound_frame_normal.
    - exists w. by eapply roomless_frame. }
  rewrite (dispatch_type _ _ _ _ _ _ Hty) in Hroom.
  unfold room_types in Hroom.
  repeat match goal with
         | |- context [String.eqb t ?s] =>
             destruct (String.eqb_spec t s) as [->|_];
             [destruct Hroom as [w' Hw']; [rewrite !elem_of_cons; auto 10|];
              simpl in Hw'; by rewrite Hw'|]
         end.
  done.
Qed.

Lemma close_survives ws w :
  reachable w -> enabled (EvClose ws) w = true ->
  exists w', exec (EvClose ws) w = Some w'.
Proof.
  intros Hw Hen. rewrite (exec_close _ _ Hen).
  destruct (reach_bound_or_roomless _ w ws Hw) as [(r & room & Hb)|Hless].
  - apply (bound_hang_up w ws) in Hb.
    destruct (isHost (sock (hang_up w ws) ws)) eqn:Hh.
    + rewrite (on_close_host _ _ _ _ Hb Hh). eauto.
    + rewrite (on_close_client _ _ _ _ Hb Hh). eauto.
  - rewrite (roomless_close ws (hang_up w ws)); [eauto|].
    by apply roomless_hang_up.
Qed.

(** X8. In a reachable world the process survives every event but one
    kind: a step fails (an uncaught exception leaves the handler) exactly
    when it is a frame that parses to a value without properties
    ([null]) or a [joinRoom] whose [roomId] cannot be turned into a key or
    names a member inherited from [Object.prototype].  Every other frame,
    every connection and every close event is handled. *)
Theorem process_dies_only_on_fatal_frames e w :
  reachable w ->
  enabled e w = true ->
  (exec e w = None <->
   exists ws message parsed uuid,
     e = EvMessage ws message parsed uuid /\ fatal_frame w parsed = true).
Proof.
  intros Hw Hen. destruct e as [ws|ws message parsed uuid|ws|ws].
  - unfold exec. rewrite Hen. simpl. split; [done|].
    by intros (? & ? & ? & ? & ? & _).
  - unfold exec. rewrite Hen. unfold handle.
    pose proof (fatal_frame_throws ws message parsed uuid w Hw) as Hf.
    destruct (on_message ws message parsed uuid w) as [[] w'|w'].
    + split; [done|]. intros (? & ? & ? & ? & [= _ _ <- _] & Hfatal). congruence.
    + split; [|done]. intros _. by exists ws, message, parsed, uuid.
  - unfold exec. rewrite Hen. simpl. split; [done|].
    by intros (? & ? & ? & ? & ? & _).
  - destruct (close_survives ws w Hw Hen) as [w' ->]. split; [done|].
    by intros (? & ? & ? & ? & ? & _).
Qed.

Lemma process_dies_only_on_fatal_frames_witness :
  exec (frame 0 (joinRoom_of "valueOf")) w_lobby = None <->
  exists ws message parsed uuid,
    frame 0 (joinRoom_of "valueOf") = EvMessage ws message parsed uuid /\
    fatal_frame w_lobby parsed = true.
Proof.
  apply (process_dies_only_on_fatal_frames (frame 0 (joinRoom_of "valueOf"))
           w_lobby).
  - apply (run_reachable [EvConnection 0]). by vm_compute.
  - by vm_compute.
Defined.

(** ** The close event in any world *)

Lemma quiet_hang_up w ws : quiet w (hang_up w ws).
Proof. split; [done|]. intros c. apply binding_hang_up. Qed.

Lemma emitted_same_wire w w' : wire w' = wire w -> emitted w w' = [].
Proof. intros Hw. unfold emitted. rewrite Hw. apply drop_all. Qed.

Lemma exec_close_cases ws w w' :
  exec (EvClose ws) w = Some w' ->
  w' = hang_up w ws \/
  (exists r room,
     bound w ws r room /\ isHost (sock w ws) = true /\
     w' = (let w1 := foldl kick (hang_up w ws) (clients room) in
           mkWorld (delete r (rooms w1)) (socks w1) (wire w1))) \/
  (exists r room,
     bound w ws r room /\ isHost (sock w ws) = false /\
     w' = (let room' := mkRoom (host room)
                          (filter (λ c, c ≠ ws) (clients room)) in
           add_wire
             (mkWorld (<[r := room']> (rooms w)) (socks (hang_up w ws)) (wire w))
             (fanout (hang_up w ws) (playerList_msg room') (members room')))).
Proof.
  intros Hex. assert (Hen : enabled (EvClose ws) w = true).
  { unfold exec in Hex. by destruct (enabled (EvClose ws) w). }
  rewrite (exec_close _ _ Hen) in Hex.
  pose proof (bound_room_cases ws (hang_up w ws)) as Hc.
  destruct (bound_room ws (hang_up w ws)) as [[|room|] w1|w1] eqn:Hbr.
  - left. revert Hex. unfold on_close. rewrite bind_run, Hbr. simpl.
    rewrite Hc. by intros [= <-].
  - destruct Hc as [_ (r & Hb)]. right.
    pose proof (bound_quiet _ _ _ _ _ (quiet_hang_up w ws) Hb) as Hb0.
    destruct (isHost (sock w ws)) eqn:Hh.
    + left. exists r, room. do 2 (split; [done|]).
      rewrite (on_close_host _ _ _ _ Hb) in Hex by by rewrite isHost_hang_up.
      by injection Hex as <-.
    + right. exists r, room. do 2 (split; [done|]).
      rewrite (on_close_client _ _ _ _ Hb) in Hex by by rewrite isHost_hang_up.
      by injection Hex as <-.
  - exfalso. revert Hex. unfold on_close. by rewrite bind_run, Hbr.
  - exfalso. revert Hex. unfold on_close. by rewrite bind_run, Hbr.
Qed.

Lemma roomId_fields_hang_up w ws c :
  roomId (sock (hang_up w ws) c) = roomId (sock w c).
Proof. by destruct (binding_fields _ _ _ (binding_hang_up w ws c)) as [-> _]. Qed.

Lemma open_in_hang_up_true w ws c :
  open_in (hang_up w ws) c = true -> c ≠ ws /\ open_in w c = true.
Proof. rewrite open_in_hang_up. by case_decide. Qed.

(** X9. Room isolation of the close event.  Whatever the state, the
    handler of a socket's close event sends to, and closes, only sockets
    that are listed in the room the closing socket is bound to and that
    are open; the closing socket itself gets nothing. *)
Theorem close_stays_in_room ws w w' :
  exec (EvClose ws) w = Some w' ->
  forall c, c ∈ targets (emitted w w') ->
    c ≠ ws /\ open_in w c = true /\
    exists r room, bound w ws r room /\ c ∈ members room.
Proof.
  intros [->|[(r & room & Hb & Hh & ->)|(r & room & Hb & Hh & ->)]]%exec_close_cases c.
  - rewrite emitted_same_wire by done. by intros ?%elem_of_nil.
  - destruct (foldl_kick_wire (clients room) (hang_up w ws))
      as (es & Hwire & Hsent & Hclosed).
    unfold emitted. simpl. simpl in Hwire. rewrite Hwire, drop_app_length.
    intros Hin. apply targets_seen in Hin.
    assert (Hc : bool_decide (c ∈ clients room) && open_in (hang_up w ws) c = true).
    { destruct (bool_decide (c ∈ clients room) && open_in (hang_up w ws) c) eqn:E;
        [done|]. rewrite Hsent, Hclosed, E in Hin. by destruct Hin. }
    apply andb_prop in Hc as [Hin'%bool_decide_eq_true Ho].
    apply open_in_hang_up_true in Ho as [Hne Ho].
    do 2 (split; [done|]). exists r, room. split; [done|].
    by apply members_clients.
  - rewrite emitted_add_wire_from by done.
    intros [Hin Ho]%targets_fanout.
    apply open_in_hang_up_true in Ho as [Hne Ho].
    do 2 (split; [done|]). exists r, room. split; [done|].
    revert Hin. unfold members. simpl. rewrite !elem_of_app, list_elem_of_filter.
    intros [?|[_ ?]]; auto.
Qed.

Lemma close_stays_in_room_witness :
  exec (EvClose 0) w_three = Some (default init (exec (EvClose 0) w_three)) /\
  1 ∈ targets (emitted w_three (default init (exec (EvClose 0) w_three))) /\
  1 ≠ 0 /\ open_in w_three 1 = true /\
  exists r room, bound w_three 0 r room /\ 1 ∈ members room.
Proof.
  assert (Hex : exec (EvClose 0) w_three
                = Some (default init (exec (EvClose 0) w_three)))
    by by vm_compute.
  assert (Hin : 1 ∈ targets (emitted w_three
                               (default init (exec (EvClose 0) w_three)))).
  { replace (targets (emitted w_three
                        (default init (exec (EvClose 0) w_three))))
      with [1; 1; 2; 2] by by vm_compute.
    apply list_elem_of_here. }
  split; [exact Hex|]. split; [exact Hin|].
  exact (close_stays_in_room 0 w_three _ Hex 1 Hin).
Defined.

(** X10. The server calls [close()] on a socket in one situation only: the
    close event of a socket bound as host fires, and the socket is an open
    client of that host's room; it is then closed exactly once.  No
    connection, frame, or close event of a client makes the server close
    anybody. *)
Theorem only_host_departure_closes e w w' c :
  exec e w = Some w' ->
  closes_of c (emitted w w') ≠ 0 ->
  exists ws r room,
    e = EvClose ws /\ bound w ws r room /\ isHost (sock w ws) = true /\
    c ∈ clients room /\ open_in w c = true /\
    closes_of c (emitted w w') = 1.
Proof.
  intros Hex. destruct e as [ws|ws message parsed uuid|ws|ws].
  - unfold exec in Hex. destruct (enabled _ w); [|done]. simpl in Hex.
    injection Hex as <-. by rewrite emitted_same_wire.
  - unfold exec in Hex. destruct (enabled _ w); [|done]. unfold handle in Hex.
    destruct (on_message ws message parsed uuid w) as [[] w1|w1] eqn:Hrun;
      [|done]. injection Hex as ->.
    apply on_message_emitted in Hrun as (es & Hwire & Hcl & _).
    unfold emitted. by rewrite Hwire, drop_app_length, Hcl.
  - unfold exec in Hex. destruct (enabled _ w); [|done]. simpl in Hex.
    injection Hex as <-. by rewrite emitted_same_wire.
  - apply exec_close_cases in Hex
      as [->|[(r & room & Hb & Hh & ->)|(r & room & Hb & Hh & ->)]].
    + by rewrite emitted_same_wire.
    + destruct (foldl_kick_wire (clients room) (hang_up w ws))
        as (es & Hwire & Hsent & Hclosed).
      unfold emitted. simpl. simpl in Hwire. rewrite Hwire, drop_app_length.
      rewrite Hclosed.
      destruct (bool_decide (c ∈ clients room) && open_in (hang_up w ws) c)
        eqn:E; [|done].
      intros _. apply andb_prop in E as [Hin%bool_decide_eq_true Ho].
      apply open_in_hang_up_true in Ho as [_ Ho].
      by exists ws, r, room.
    + rewrite emitted_add_wire_from by done. by rewrite closes_of_fanout.
Qed.

Lemma only_host_departure_closes_witness :
  exists ws r room,
    EvClose 0 = EvClose ws /\ bound w_three ws r room /\
    isHost (sock w_three ws) = true /\
    1 ∈ clients room /\ open_in w_three 1 = true /\
    closes_of 1 (emitted w_three (default init (exec (EvClose 0) w_three))) = 1.
Proof.
  apply (only_host_departure_closes (EvClose 0) w_three).
  - by vm_compute.
  - by vm_compute.
Defined.

(** ** Round trips *)

Lemma case_createRoom_eq ws uuid w :
  case_createRoom ws uuid w =
    Normal tt (add_wire (created w ws uuid) [Sent ws (roomCreated_msg uuid)]).
Proof.
  unfold case_createRoom. rewrite bind_run. unfold rooms_put at 1.
  by rewrite set_roomId_isHost_run.
Qed.

Lemma enabled_message_alive ws message parsed uuid w :
  enabled (EvMessage ws message parsed uuid) w = true ->
  exists s, socks w !! ws = Some s /\ readyState s ≠ CLOSED /\
            rooms w !! uuid = None /\ String.length uuid = 36.
Proof.
  simpl. destruct (socks w !! ws) as [s|]; [|done].
  intros [[Hrs Hfresh%bool_decide_eq_true]%andb_prop Hlen%Nat.eqb_eq]%andb_prop.
  exists s. split; [done|]. split; [|done]. by destruct (readyState s).
Qed.

Lemma enabled_close_rebind w ws v b s es rs :
  socks w !! ws = Some s -> readyState s ≠ CLOSED ->
  enabled (EvClose ws)
    (add_wire (mkWorld rs (socks (rebind w ws v b)) (wire w)) es) = true.
Proof.
  intros Hs Hrs. simpl. rewrite lookup_insert_eq. unfold sock. rewrite Hs.
  simpl. by destruct (readyState s).
Qed.

Lemma exec_createRoom_eq ws message data uuid w :
  Get data "type" = Some (VStr "createRoom") ->
  enabled (EvMessage ws message (Some data) uuid) w = true ->
  exec (EvMessage ws message (Some data) uuid) w =
    Some (add_wire (created w ws uuid) [Sent ws (roomCreated_msg uuid)]).
Proof.
  intros Ht Hen. unfold exec. rewrite Hen. unfold handle.
  by rewrite (dispatch_createRoom _ _ _ _ _ Ht), case_createRoom_eq.
Qed.

(** What creating a room and then hanging up amounts to. *)
Lemma create_then_close ws message data uuid w :
  Get data "type" = Some (VStr "createRoom") ->
  enabled (EvMessage ws message (Some data) uuid) w = true ->
  exists w1 w2,
    exec (EvMessage ws message (Some data) uuid) w = Some w1 /\
    exec (EvClose ws) w1 = Some w2 /\
    rooms w2 = rooms w /\
    wire w2 = wire w1 /\
    socks w2 !! ws = Some (mkWebSocket (VStr uuid) true CLOSED).
Proof.
  intros Ht Hen.
  destruct (enabled_message_alive _ _ _ _ _ Hen) as (s & Hs & Hrs & Hfresh & Hlen).
  set (w1 := add_wire (created w ws uuid) [Sent ws (roomCreated_msg uuid)]).
  assert (Hb : bound w1 ws uuid (mkRoom (Some ws) [])).
  { unfold bound, w1, created, sock. simpl. rewrite lookup_insert_eq. simpl.
    split; [|split; [done|apply lookup_insert_eq]].
    by destruct (String.eqb_spec uuid "") as [->|]. }
  assert (Hh : isHost (sock w1 ws) = true).
  { unfold w1, created, sock. simpl. by rewrite lookup_insert_eq. }
  assert (Hen1 : enabled (EvClose ws) w1 = true)
    by by eapply enabled_close_rebind.
  exists w1, (mkWorld (delete uuid (rooms (hang_up w1 ws)))
                (socks (hang_up w1 ws)) (wire (hang_up w1 ws))).
  split; [by apply exec_createRoom_eq|].
  split; [by rewrite (exec_close_host ws uuid (mkRoom (Some ws) []) w1)|].
  simpl. split; [by apply delete_insert_id|]. split; [done|].
  rewrite lookup_insert_eq. unfold sock. simpl. by rewrite lookup_insert_eq.
Qed.

(** X11. Creating a room and then disconnecting is a round trip on the
    registry: after the creator's close event the registry is exactly what
    it was before the [createRoom], and the close itself sends nothing
    (the room had no clients). *)
Theorem createRoom_then_close_restores ws message data uuid w :
  Get data "type" = Some (VStr "createRoom") ->
  enabled (EvMessage ws message (Some data) uuid) w = true ->
  exists w1 w2,
    exec (EvMessage ws message (Some data) uuid) w = Some w1 /\
    exec (EvClose ws) w1 = Some w2 /\
    rooms w2 = rooms w /\
    emitted w1 w2 = [].
Proof.
  intros Ht Hen.
  destruct (create_then_close ws message data uuid w Ht Hen)
    as (w1 & w2 & H1 & H2 & Hrooms & Hwire & _).
  exists w1, w2. do 3 (split; [done|]). by apply emitted_same_wire.
Qed.

Lemma createRoom_then_close_restores_witness :
  exists w1 w2,
    exec (createRoom_by 3 uuid2) w_three_and_guest = Some w1 /\
    exec (EvClose 3) w1 = Some w2 /\
    rooms w2 = rooms w_three_and_guest /\
    emitted w1 w2 = [].
Proof.
  apply (createRoom_then_close_restores 3 "{...}" (msg "createRoom") uuid2
           w_three_and_guest).
  - reflexivity.
  - by vm_compute.
Defined.



Lemma filter_ne_absent (ws : Sock) (l : list Sock) :
  ws ∉ l -> filter (λ c, c ≠ ws) l = l.
Proof.
  induction l as [|c l IH]; [done|].
  rewrite not_elem_of_cons. intros [Hne Hl].
  rewrite filter_cons_True by done. by rewrite IH.
Qed.





(** X14. Clients do not outlive their host's room in any useful way: in a
    bind-once run, once the close event of a room's host has been handled,
    every socket that was a client of the room is roomless, so each of its
    later room-routed frames is dropped without effect and its own close
    event changes nothing but its [readyState]. *)
Theorem clients_inert_after_host_left ws r room w :
  reach bind_once w ->
  enabled (EvClose ws) w = true ->
  bound w ws r room ->
  isHost (sock w ws) = true ->
  exists w',
    exec (EvClose ws) w = Some w' /\
    forall c, c ∈ clients room ->
      roomless w' c /\
      (forall message data uuid t,
         t ∈ room_types -> Get data "type" = Some (VStr t) ->
         on_message c message (Some data) uuid w' = Normal tt w') /\
      on_close c (hang_up w' c) = Normal tt (hang_up w' c).
Proof.
  intros Hw Hen Hb Hh. eexists.
  split; [by apply exec_close_host|]. intros c Hc.
  set (w1 := foldl kick (hang_up w ws) (clients room)).
  set (w' := mkWorld (delete r (rooms w1)) (socks w1) (wire w1)).
  assert (Hr : rooms w !! r = Some room) by apply Hb.
  destruct (reach_consistent _ Hw) as (_ & Hcli & _).
  destruct (Hcli r room c Hr Hc) as (_ & Hk & _).
  destruct (foldl_kick_quiet (clients room) (hang_up w ws)) as [Hrooms Hbind].
  assert (Hid : roomId (sock w' c) = roomId (sock w c)).
  { transitivity (roomId (sock (hang_up w ws) c));
      [|apply roomId_fields_hang_up].
    exact (proj1 (binding_fields _ _ _ (Hbind c))). }
  assert (Hless : roomless w' c).
  { right. exists r. split; [by rewrite Hid|].
    apply rooms_get_SUndefined. split; [apply lookup_delete_eq|].
      by eapply reach_room_not_inherited. }
  split; [done|]. split.
  - intros message data uuid t. by apply roomless_frame.
  - by apply roomless_close, roomless_hang_up.
Qed.

Lemma clients_inert_after_host_left_witness :
  exists w',
    exec (EvClose 0) w_three = Some w' /\
    forall c, c ∈ [1; 2] ->
      roomless w' c /\
      (forall message data uuid t,
         t ∈ room_types -> Get data "type" = Some (VStr t) ->
         on_message c message (Some data) uuid w' = Normal tt w') /\
      on_close c (hang_up w' c) = Normal tt (hang_up w' c).
Proof.
  apply (clients_inert_after_host_left 0 uuid1 (mkRoom (Some 0) [1; 2]) w_three).
  - apply w_three_bind_once.
  - by vm_compute.
  - apply w_three_bound. auto.
  - by vm_compute.
Defined.

(** ** Labels in the player list *)

(** X15. The player-list payload identifies nobody: it is determined by
    whether the room has a host and by the number of clients alone, so two
    rooms with the same number of clients get the same payload whoever the
    clients are. *)
Theorem playerList_depends_on_count room1 room2 :
  (is_Some (host room1) <-> is_Some (host room2)) ->
  length (clients room1) = length (clients room2) ->
  playerList_msg room1 = playerList_msg room2.
Proof.
  intros Hhost Hlen. unfold playerList_msg, players_of. do 6 f_equal.
  f_equal.
  - destruct (host room1), (host room2); try done.
    + by destruct (proj1 Hhost ltac:(by eexists)) as [? ?].
    + by destruct (proj2 Hhost ltac:(by eexists)) as [? ?].
  - unfold client_player. by rewrite !imap_seq_0, Hlen.
Qed.

Lemma playerList_depends_on_count_witness :
  playerList_msg (mkRoom (Some 0) [1; 2]) = playerList_msg (mkRoom (Some 7) [5; 9]).
Proof.
  apply (playerList_depends_on_count (mkRoom (Some 0) [1; 2])
           (mkRoom (Some 7) [5; 9])).
  - split; intros _; by eexists.
  - reflexivity.
Defined.

Lemma filter_ne_delete (ws : Sock) (l : list Sock) i :
  NoDup l -> l !! i = Some ws -> filter (λ c, c ≠ ws) l = delete i l.
Proof.
  intros Hnd. revert i. induction Hnd as [|c l Hnin Hnd IH]; intros i; [done|].
  destruct i as [|i]; simpl.
  - intros [= ->]. rewrite filter_cons_False by (by intros ?).
    by apply filter_ne_absent.
  - intros Hi. rewrite filter_cons_True.
    + by rewrite (IH i).
    + intros ->. apply Hnin. by eapply list_elem_of_lookup_2.
Qed.

(** X16. Labels move when somebody leaves.  In a bind-once run, when the
    client at position [i] of a room disconnects, its entry is cut out of
    the clients list: clients before it keep their position, and every
    client after it moves one position down, so the next player list
    labels it [client-(j-1)] instead of [client-j]. *)
Theorem departure_shifts_positions ws r room i w :
  reach bind_once w ->
  enabled (EvClose ws) w = true ->
  bound w ws r room ->
  isHost (sock w ws) = false ->
  clients room !! i = Some ws ->
  exists w' room',
    exec (EvClose ws) w = Some w' /\
    rooms w' !! r = Some room' /\
    host room' = host room /\
    clients room' = delete i (clients room) /\
    (forall j : nat, (j < i)%nat -> clients room' !! j = clients room !! j) /\
    (forall j : nat, (i ≤ j)%nat -> clients room' !! j = clients room !! S j) /\
    (forall (j : nat) c, (i ≤ j)%nat -> clients room !! S j = Some c ->
       players_of room !! S (S j) = Some (client_player (S j) c) /\
       players_of room' !! S j = Some (client_player j c)).
Proof.
  intros Hw Hen Hb Hh Hi.
  assert (Hr : rooms w !! r = Some room) by apply Hb.
  destruct (reach_consistent _ Hw) as (_ & _ & Hnd).
  specialize (Hnd r room Hr).
  pose proof (reach_hosted _ _ Hw r room Hr) as [h Hhost].
  eexists. exists (mkRoom (host room) (filter (λ c, c ≠ ws) (clients room))).
  split; [by apply exec_close_client|]. simpl.
  split; [apply lookup_insert_eq|]. split; [done|].
  rewrite (filter_ne_delete ws (clients room) i) by done.
  split; [done|].
  split; [intros j Hj; by apply list_lookup_delete_lt|].
  split; [intros j Hj; by apply list_lookup_delete_ge|].
  intros j c Hj Hc. unfold players_of. simpl. rewrite Hhost. simpl.
  rewrite !list_lookup_imap, Hc, list_lookup_delete_ge, Hc by done. done.
Qed.

Lemma departure_shifts_positions_witness :
  exists w' room',
    exec (EvClose 1) w_three = Some w' /\
    rooms w' !! uuid1 = Some room' /\
    host room' = Some 0 /\
    clients room' = delete 0 [1; 2] /\
    (forall j : nat, (j < 0)%nat -> clients room' !! j = [1; 2] !! j) /\
    (forall j : nat, (0 ≤ j)%nat -> clients room' !! j = [1; 2] !! S j) /\
    (forall (j : nat) c, (0 ≤ j)%nat -> [1; 2] !! S j = Some c ->
       players_of (mkRoom (Some 0) [1; 2]) !! S (S j)
         = Some (client_player (S j) c) /\
       players_of room' !! S j = Some (client_player j c)).
Proof.
  apply (departure_shifts_positions 1 uuid1 (mkRoom (Some 0) [1; 2]) 0 w_three).
  - apply w_three_bind_once.
  - by vm_compute.
  - apply w_three_bound. auto.
  - by vm_compute.
  - reflexivity.
Defined.

(** ** How the registry can change *)

(** X17. Rooms come and go in one way each.  A step puts a new identifier
    into the registry only if it is a [createRoom] frame, and then the
    identifier is the one [uuidv4()] returned; a room disappears from the
    registry only through the close event of a socket bound to it with the
    host flag set. *)
Theorem registry_changes_accounted e w w' r :
  exec e w = Some w' ->
  (rooms w !! r = None -> is_Some (rooms w' !! r) ->
   exists ws message data,
     e = EvMessage ws message (Some data) r /\
     Get data "type" = Some (VStr "createRoom") /\
     rooms w' !! r = Some (mkRoom (Some ws) [])) /\
  (is_Some (rooms w !! r) -> rooms w' !! r = None ->
   exists ws room,
     e = EvClose ws /\ bound w ws r room /\ isHost (sock w ws) = true).
Proof.
  intros Hch%exec_change. destruct Hch
    as [e w w' [Hr _]|ws m d uuid w w' Ht Hfresh _ Hr _ _
       |ws m d uuid v key room w w' _ _ Hkey Hr _ _
       |ws key room w w' Hb Hh Hr _|ws key room w w' (_ & _ & Hkey) _ Hr _];
    rewrite Hr.
  - split; [intros ->; by intros [? ?]|]. intros [? ->]. done.
  - rewrite lookup_insert. case_decide as Heq.
    + subst r. split; [|done]. intros _ _. by exists ws, m, d.
    + split; [intros ->; by intros [? ?]|]. intros [? ->]. done.
  - rewrite lookup_insert. case_decide as Heq.
    + subst r. split; [by rewrite Hkey|done].
    + split; [intros ->; by intros [? ?]|]. intros [? ->]. done.
  - rewrite lookup_delete. case_decide as Heq.
    + subst r. split; [by intros _ [? ?]|]. intros _ _. by exists ws, room.
    + split; [intros ->; by intros [? ?]|]. intros [? ->]. done.
  - rewrite lookup_insert. case_decide as Heq.
    + subst r. split; [by rewrite Hkey|done].
    + split; [intros ->; by intros [? ?]|]. intros [? ->]. done.
Qed.

Lemma registry_changes_accounted_witness :
  (rooms w_three !! uuid1 = None ->
   is_Some (rooms (default init (exec (EvClose 0) w_three)) !! uuid1) ->
   exists ws message data,
     EvClose 0 = EvMessage ws message (Some data) uuid1 /\
     Get data "type" = Some (VStr "createRoom") /\
     rooms (default init (exec (EvClose 0) w_three)) !! uuid1
       = Some (mkRoom (Some ws) [])) /\
  (is_Some (rooms w_three !! uuid1) ->
   rooms (default init (exec (EvClose 0) w_three)) !! uuid1 = None ->
   exists ws room,
     EvClose 0 = EvClose ws /\ bound w_three ws uuid1 room /\
     isHost (sock w_three ws) = true).
Proof.
  apply (registry_changes_accounted (EvClose 0) w_three). by vm_compute.
Defined.

(** X18. A socket leaves a clients list only by its own doing: if a room
    survives a step and a socket that was in its clients list no longer is,
    the step was the close event of that very socket. *)
Theorem client_removed_only_by_own_close e w w' r room room' c :
  exec e w = Some w' ->
  rooms w !! r = Some room -> rooms w' !! r = Some room' ->
  c ∈ clients room -> c ∉ clients room' ->
  e = EvClose c.
Proof.
  intros Hch%exec_change Hold Hnew Hin Hout. destruct Hch
    as [e w w' [Hr _]|ws m d uuid w w' Ht Hfresh _ Hr _ _
       |ws m d uuid v key room0 w w' _ _ Hkey Hr _ _
       |ws key room0 w w' Hb Hh Hr _|ws key room0 w w' (_ & _ & Hkey) _ Hr _];
    rewrite Hr in Hnew.
  - rewrite Hold in Hnew. injection Hnew as <-. done.
  - rewrite lookup_insert_ne in Hnew by congruence.
    rewrite Hold in Hnew. injection Hnew as <-. done.
  - rewrite lookup_insert in Hnew. case_decide as Heq.
    + subst r. rewrite Hold in Hkey. injection Hkey as <-.
      injection Hnew as <-. simpl in Hout. rewrite elem_of_app in Hout.
      exfalso. auto.
    + rewrite Hold in Hnew. injection Hnew as <-. done.
  - rewrite lookup_delete in Hnew. case_decide; [done|].
    rewrite Hold in Hnew. injection Hnew as <-. done.
  - rewrite lookup_insert in Hnew. case_decide as Heq.
    + subst r. rewrite Hold in Hkey. injection Hkey as <-.
      injection Hnew as <-. simpl in Hout. rewrite list_elem_of_filter in Hout.
      destruct (decide (c = ws)) as [->|Hne]; [done|]. exfalso. auto.
    + rewrite Hold in Hnew. injection Hnew as <-. done.
Qed.

Lemma client_removed_only_by_own_close_witness :
  exec (EvClose 1) w_three = Some (default init (exec (EvClose 1) w_three)) /\
  rooms w_three !! uuid1 = Some (mkRoom (Some 0) [1; 2]) /\
  rooms (default init (exec (EvClose 1) w_three)) !! uuid1
    = Some (mkRoom (Some 0) [2]) /\
  EvClose 1 = EvClose 1.
Proof.
  do 3 (split; [by vm_compute|]).
  apply (client_removed_only_by_own_close (EvClose 1) w_three
           (default init (exec (EvClose 1) w_three)) uuid1
           (mkRoom (Some 0) [1; 2]) (mkRoom (Some 0) [2]) 1).
  - by vm_compute.
  - by vm_compute.
  - by vm_compute.
  - simpl. apply list_elem_of_here.
  - simpl. rewrite not_elem_of_cons. split; [done|apply not_elem_of_nil].
Defined.
